(** * ocitools [validate]: a shallow embedding of [validate.go]

    The embedding follows the source file top to bottom.  Go strings are
    byte strings ([string]); a [range] over a string decodes UTF-8 into
    runes.  [logrus] output and process exit are an explicit writer/exit
    monad.  Go maps are [gmap]s, and the order in which a [range] statement
    visits a map is chosen by the Go runtime, which is a parameter.

    The file has the Go library and the configuration first, then
    [validate.go], then the vocabulary in which the properties are stated
    and the inputs of the examples, and last the lemmas and theorems. *)

From Stdlib Require Import ZArith Ascii String List Bool Lia.
From stdpp Require Import base tactics option list strings gmap fin_maps.

Local Open Scope string_scope.
Local Open Scope list_scope.
Local Open Scope Z_scope.

(** ** Go strings *)

Definition rune := Z.

Definition byteZ (a : ascii) : Z := Z.of_N (N_of_ascii a).

(** [len(s)] *)
Definition len (s : string) : Z := Z.of_nat (String.length s).

(** [strings.HasPrefix(s, prefix)] *)
Definition strings_HasPrefix (s pre : string) : bool := String.prefix pre s.

(** [strings.Contains(s, substr)] *)
Fixpoint strings_Contains (s substr : string) : bool :=
  String.prefix substr s ||
  match s with
  | EmptyString => false
  | String _ s' => strings_Contains s' substr
  end.

(** [strings.Split(s, sep)] for a separator [sep] of one byte, the only form
    the validator uses (["="] and a tab): the pieces of [s] between the
    occurrences of [sep]; there is always at least one piece. *)
Fixpoint strings_Split (s : string) (sep : ascii) : list string :=
  match s with
  | EmptyString => [EmptyString]
  | String c s' =>
      if Ascii.eqb c sep then EmptyString :: strings_Split s' sep
      else match strings_Split s' sep with
           | p :: ps => String c p :: ps
           | [] => [String c EmptyString]
           end
  end.

(** [path.IsAbs] and, on a Unix host, [filepath.IsAbs]. *)
Definition path_IsAbs (p : string) : bool := strings_HasPrefix p "/".
Definition filepath_IsAbs (p : string) : bool := strings_HasPrefix p "/".

(** *** UTF-8 decoding, as a [range] over a string performs it

    An ill-formed byte yields [RuneError] and the scan moves on one byte. *)

Definition RuneError : rune := 65533.

(** The size of the sequence a first byte announces and the range its
    second byte must lie in ([first] and [acceptRanges] of [unicode/utf8]). *)
Definition utf8_first (b0 : Z) : option (nat * Z * Z) :=
  if b0 <? 194 then None
  else if b0 <=? 223 then Some (2%nat, 128, 191)
  else if b0 =? 224 then Some (3%nat, 160, 191)
  else if b0 <=? 236 then Some (3%nat, 128, 191)
  else if b0 =? 237 then Some (3%nat, 128, 159)
  else if b0 <=? 239 then Some (3%nat, 128, 191)
  else if b0 =? 240 then Some (4%nat, 144, 191)
  else if b0 <=? 243 then Some (4%nat, 128, 191)
  else if b0 =? 244 then Some (4%nat, 128, 143)
  else None.

Definition between (lo hi : Z) (a : ascii) : bool :=
  (lo <=? byteZ a) && (byteZ a <=? hi).

Definition low6 (a : ascii) : Z := Z.land (byteZ a) 63.

Fixpoint runes (s : string) : list rune :=
  match s with
  | EmptyString => []
  | String a s1 =>
      let b0 := byteZ a in
      if b0 <? 128 then b0 :: runes s1
      else
        match utf8_first b0, s1 with
        | Some (2%nat, lo, hi), String a1 s2 =>
            if between lo hi a1
            then Z.lor (Z.shiftl (Z.land b0 31) 6) (low6 a1) :: runes s2
            else RuneError :: runes s1
        | Some (3%nat, lo, hi), String a1 (String a2 s3) =>
            if between lo hi a1 && between 128 191 a2
            then Z.lor (Z.shiftl (Z.land b0 15) 12)
                   (Z.lor (Z.shiftl (low6 a1) 6) (low6 a2)) :: runes s3
            else RuneError :: runes s1
        | Some (4%nat, lo, hi), String a1 (String a2 (String a3 s4)) =>
            if between lo hi a1 && between 128 191 a2 && between 128 191 a3
            then Z.lor (Z.shiftl (Z.land b0 7) 18)
                   (Z.lor (Z.shiftl (low6 a1) 12)
                      (Z.lor (Z.shiftl (low6 a2) 6) (low6 a3))) :: runes s4
            else RuneError :: runes s1
        | _, _ => RuneError :: runes s1
        end
  end.

(** ** Packages outside the repository

    [unicode]'s tables, [path.Join] and [semver.Parse] (github.com/blang/semver)
    are not part of the repository; the validator is read over any
    implementation of them. [semver_Parse v] is the error of
    [semver.Parse(v)], [None] for [nil]. *)
Class GoLib := {
  unicode_IsDigit : rune -> bool;
  unicode_IsLetter : rune -> bool;
  unicode_IsSpace : rune -> bool;
  path_Join : list string -> string;
  semver_Parse : string -> option string
}.

(** [strings.TrimLeftFunc] and [strings.TrimRightFunc] on the rune sequence
    of a string. *)
Fixpoint TrimLeftFunc (f : rune -> bool) (rs : list rune) : list rune :=
  match rs with
  | [] => []
  | r :: rs' => if f r then TrimLeftFunc f rs' else rs
  end.

Definition TrimRightFunc (f : rune -> bool) (rs : list rune) : list rune :=
  rev (TrimLeftFunc f (rev rs)).

(** The rune sequence of [strings.TrimSpace(s)]: the runes of [s] without
    the leading and trailing ones in [unicode.IsSpace].  (The configuration
    text passed [utf8.Valid] and [json.Unmarshal], so decoding [s] forwards,
    as [range] does, or backwards, as the right trim does, meets the same
    runes.) *)
Definition TrimSpace_runes `{GoLib} (s : string) : list rune :=
  TrimRightFunc unicode_IsSpace (TrimLeftFunc unicode_IsSpace (runes s)).

(** ** The configuration: package [specs-go] (imported as [rspec])

    The records list the fields [validate.go] reads.  [int64] fields are
    [Z]; a [map[string]string] is a [gmap]; the optional [*Seccomp] is an
    [option]. *)

Record Platform := { OS : string; Arch : string }.

Record Rlimit := { Rlimit_Type : string }.

Record Process := {
  Cwd : string;
  Env : list string;
  Capabilities : list string;
  Rlimits : list Rlimit;
  ApparmorProfile : string
}.

Record Mount := { Mount_Type : string }.

Record Hook := { Hook_Path : string; Hook_Env : list string }.

Record Hooks := {
  Prestart : list Hook;
  Poststart : list Hook;
  Poststop : list Hook
}.

Record IDMapping := { HostID : Z; ContainerID : Z; Size : Z }.

Record Namespace := { Namespace_Type : string; Namespace_Path : string }.

Record Device := { Device_Type : string; Major : Z; Minor : Z }.

Record Arg := { Op : string }.

Record Syscall := { Syscall_Action : string; Syscall_Args : list Arg }.

Record Seccomp := {
  DefaultAction : string;
  Architectures : list string;
  Syscalls : list Syscall
}.

Record Linux := {
  UIDMappings : list IDMapping;
  GIDMappings : list IDMapping;
  Sysctl : gmap string string;
  Namespaces : list Namespace;
  Devices : list Device;
  Linux_Seccomp : option Seccomp;
  RootfsPropagation : string
}.

Record Spec := {
  Version : string;
  Spec_Platform : Platform;
  Spec_Process : Process;
  Hostname : string;
  Mounts : list Mount;
  Spec_Hooks : Hooks;
  Spec_Linux : Linux
}.

(** ** What package [reflect] shows of a value

    [checkMandatory] walks any Go value through [reflect].  A [value] is the
    part of a Go value the walker can observe: the kind, for a struct the
    name of its type and its fields with their declarations, for a slice or
    a map its elements (a nil slice or map has length 0 and is
    indistinguishable, to the walker, from an empty one; the values of a map
    come in the order [MapKeys] lists the keys).  Of a nil pointer to a
    struct only the pointed-to type is left, of which the walker reads the
    number of fields. *)

Record StructField := {
  Name : string;          (* StructField.Name *)
  Tag_json : string;      (* StructField.Tag.Get("json") *)
  exported : bool         (* whether Value.CanInterface() holds of the field *)
}.

#[warnings="-register-all"]
Inductive value : Type :=
| VStruct (tname : string) (fields : list (StructField * value))
| VStructPtr (tname : string) (fields : list (StructField * value))
| VNilStructPtr (numField : nat)
| VPtr (isNil : bool)
| VString (s : string)
| VSlice (elems : list value)
| VMap (vals : list value)
| VOther.

(** ** Output and exit: [logrus]

    [logrus.Warnf] appends an entry; [logrus.Fatalf] appends an entry and
    ends the process with [os.Exit(1)].  Messages are kept as the format and
    its arguments.  A run-time panic (of package [reflect]) ends the run as
    well. *)

Inductive arg : Type :=
| AString (s : string)
| AStrings (l : list string)
| AError (e : string)
| ANamespace (n : Namespace)
| ADevice (d : Device)
| ASyscall (s : Syscall).

Inductive Level := WarnLevel | FatalLevel.

Record Entry := { level : Level; format : string; args : list arg }.

Inductive outcome (A : Type) : Type :=
| Returns (a : A)
| Exits
| Panics.
Arguments Returns {A} a.
Arguments Exits {A}.
Arguments Panics {A}.

Definition M (A : Type) : Type := (list Entry * outcome A)%type.

#[export] Instance M_ret : MRet M := fun A a => ([], Returns a).

#[export] Instance M_bind : MBind M := fun A B k m =>
  match m with
  | (l, Returns a) => let '(l', o) := k a in (l ++ l', o)
  | (l, Exits) => (l, Exits)
  | (l, Panics) => (l, Panics)
  end.

Definition Warnf (fmt : string) (a : list arg) : M unit :=
  ([{| level := WarnLevel; format := fmt; args := a |}], Returns tt).

Definition Fatalf (fmt : string) (a : list arg) : M unit :=
  ([{| level := FatalLevel; format := fmt; args := a |}], Exits).

(** [logrus.Fatal(err)] prints its arguments with no format. *)
Definition Fatal (a : list arg) : M unit := Fatalf "" a.

Definition panic {A} : M A := ([], Panics).

Definition skip : M unit := mret tt.

(** [for _, x := range l { body }] over a slice. *)
Fixpoint forEach {A} (l : list A) (body : A -> M unit) : M unit :=
  match l with
  | [] => skip
  | x :: l' => body x ;; forEach l' body
  end.

Definition output {A} (m : M A) : list Entry := m.1.
Definition result {A} (m : M A) : outcome A := m.2.

(** The check, or the whole validation, ran to its end. *)
Definition passes (m : M unit) : Prop := result m = Returns tt.

(** ** Declarations outside [validate.go]

    The constants of package [specs-go], and how [reflect] sees a [Spec]
    (the struct declarations with their field names and json tags), belong
    to another repository.  The namespace constants are the cases of one
    [switch] in [namespaceValid], so the compiler guarantees them distinct. *)
Class SpecsGo := {
  rspec_Version : string;
  PIDNamespace : string;
  NetworkNamespace : string;
  MountNamespace : string;
  IPCNamespace : string;
  UTSNamespace : string;
  UserNamespace : string;
  CgroupNamespace : string;
  namespaces_distinct :
    NoDup [PIDNamespace; NetworkNamespace; MountNamespace; IPCNamespace;
           UTSNamespace; UserNamespace; CgroupNamespace];
  ActKill : string;
  ActTrap : string;
  ActErrno : string;
  ActTrace : string;
  ActAllow : string;
  ArchX86 : string;
  ArchX86_64 : string;
  ArchX32 : string;
  ArchARM : string;
  ArchAARCH64 : string;
  ArchMIPS : string;
  ArchMIPS64 : string;
  ArchMIPS64N32 : string;
  ArchMIPSEL : string;
  ArchMIPSEL64 : string;
  ArchMIPSEL64N32 : string;
  ArchPPC : string;
  ArchPPC64 : string;
  ArchPPC64LE : string;
  ArchS390 : string;
  ArchS390X : string;
  OpNotEqual : string;
  OpLessThan : string;
  OpLessEqual : string;
  OpEqualTo : string;
  OpGreaterEqual : string;
  OpGreaterThan : string;
  OpMaskedEqual : string;
  reflect_Spec : Spec -> value
}.

(** [defaultCaps] is declared in another file of package [main]. *)
Class PackageMain := { defaultCaps : list string }.

(** The Go runtime chooses the order in which a [range] visits a map: any
    enumeration of its entries. *)
Class GoRuntime := {
  map_range : forall {V : Type}, gmap string V -> list (string * V);
  map_range_perm : forall (V : Type) (m : gmap string V),
    map_range m ≡ₚ map_to_list m
}.

(** The filesystem of the host: [os.Stat], and what a [bufio.Scanner] reads
    from [/proc/filesystems], each line with the value of [s.Err()] when it
    is delivered. *)
Record FileInfo := { Mode : Z; IsDir : bool }.

Record Host := {
  os_Stat : string -> FileInfo + string;
  proc_filesystems : list (string * option string) + string
}.

(** ** [validate.go] *)

Definition defaultRlimits : list string :=
  ["RLIMIT_CPU"; "RLIMIT_FSIZE"; "RLIMIT_DATA"; "RLIMIT_STACK"; "RLIMIT_CORE";
   "RLIMIT_RSS"; "RLIMIT_NPROC"; "RLIMIT_NOFILE"; "RLIMIT_MEMLOCK";
   "RLIMIT_AS"; "RLIMIT_LOCKS"; "RLIMIT_SIGPENDING"; "RLIMIT_MSGQUEUE";
   "RLIMIT_NICE"; "RLIMIT_RTPRIO"; "RLIMIT_RTTIME"].

Section Validate.
Context `{GoLib} `{SpecsGo} `{PackageMain} `{GoRuntime}.

Definition checkSemVer (version : string) : M unit :=
  match semver_Parse version with
  | Some err => Fatalf "%q is not valid SemVer: %s" [AString version; AString err]
  | None => skip
  end ;;
  if negb (String.eqb version rspec_Version)
  then Fatalf "internal error: validate currently only handles version %s, but the supplied configuration targets %s"
         [AString rspec_Version; AString version]
  else skip.

Definition validCombins : gmap string (list string) :=
  list_to_map
    [("darwin", ["386"; "amd64"; "arm"; "arm64"]);
     ("dragonfly", ["amd64"]);
     ("freebsd", ["386"; "amd64"; "arm"]);
     ("linux", ["386"; "amd64"; "arm"; "arm64"; "ppc64"; "ppc64le"; "mips64"; "mips64le"]);
     ("netbsd", ["386"; "amd64"; "arm"]);
     ("openbsd", ["386"; "amd64"; "arm"]);
     ("plan9", ["386"; "amd64"]);
     ("solaris", ["amd64"]);
     ("windows", ["386"; "amd64"])].

(** The [range] over [validCombins]; the [return] of the inner loop leaves
    the function, the statement after the loop is reached when no key
    matched. *)
Fixpoint checkPlatform_range (platform : Platform)
    (entries : list (string * list string)) : M unit :=
  match entries with
  | [] => Fatalf "Operation system %q of the bundle is not supported yet."
            [AString (OS platform)]
  | (os, archs) :: rest =>
      if String.eqb os (OS platform) then
        if existsb (fun arch => String.eqb arch (Arch platform)) archs
        then skip
        else Fatalf "Combination of %q and %q is invalid."
               [AString (OS platform); AString (Arch platform)]
      else checkPlatform_range platform rest
  end.

Definition checkPlatform (platform : Platform) : M unit :=
  checkPlatform_range platform (map_range validCombins).

(** The loop of [envValid] over the runes of the trimmed key; [i] counts the
    runes met (Go's [i] is the byte offset: both are 0 at the first rune
    only). *)
Fixpoint envValid_range (env : string) (i : nat) (rs : list rune) : M bool :=
  match rs with
  | [] => mret true
  | ch :: rs' =>
      if negb (unicode_IsDigit ch) && negb (unicode_IsLetter ch)
         && negb (ch =? 95)
      then mret false
      else
        (if Nat.eqb i 0 && unicode_IsDigit ch
         then Warnf "Env %v: variable name beginning with digit is not recommended."
                [AString env]
         else skip) ;;
        envValid_range env (S i) rs'
  end.

Definition envValid (env : string) : M bool :=
  let items := strings_Split env "=" in
  if (length items <? 2)%nat then mret false
  else envValid_range env 0 (TrimSpace_runes (nth 0 items EmptyString)).

Definition capValid (capability : string) : bool :=
  existsb (fun val => String.eqb val capability) defaultCaps.

Definition rlimitValid (rlimit : string) : bool :=
  existsb (fun val => String.eqb val rlimit) defaultRlimits.

Definition namespaceValid (ns : Namespace) : bool :=
  let t := Namespace_Type ns in
  String.eqb t PIDNamespace || String.eqb t NetworkNamespace
  || String.eqb t MountNamespace || String.eqb t IPCNamespace
  || String.eqb t UTSNamespace || String.eqb t UserNamespace
  || String.eqb t CgroupNamespace.

Definition deviceValid (d : Device) : bool :=
  if String.eqb (Device_Type d) "b" then true
  else if String.eqb (Device_Type d) "c" then true
  else if String.eqb (Device_Type d) "u" then
    if Major d <=? 0 then false
    else if Minor d <=? 0 then false
    else true
  else if String.eqb (Device_Type d) "p" then
    if (0 <? Major d) || (0 <? Minor d) then false else true
  else false.

Definition seccompActionValid (secc : string) : bool :=
  String.eqb secc "" || String.eqb secc ActKill || String.eqb secc ActTrap
  || String.eqb secc ActErrno || String.eqb secc ActTrace
  || String.eqb secc ActAllow.

Definition opValid (op : string) : bool :=
  String.eqb op OpNotEqual || String.eqb op OpLessThan
  || String.eqb op OpLessEqual || String.eqb op OpEqualTo
  || String.eqb op OpGreaterEqual || String.eqb op OpGreaterThan
  || String.eqb op OpMaskedEqual.

Definition syscallValid (s : Syscall) : bool :=
  if negb (seccompActionValid (Syscall_Action s)) then false
  else forallb (fun a => opValid (Op a)) (Syscall_Args s).

Definition archValid (a : string) : bool :=
  existsb (String.eqb a)
    [ArchX86; ArchX86_64; ArchX32; ArchARM; ArchAARCH64; ArchMIPS;
     ArchMIPS64; ArchMIPS64N32; ArchMIPSEL; ArchMIPSEL64; ArchMIPSEL64N32;
     ArchPPC; ArchPPC64; ArchPPC64LE; ArchS390; ArchS390X].

Definition checkSeccomp (s : Seccomp) : M unit :=
  (if negb (seccompActionValid (DefaultAction s))
   then Fatalf "seccomp defaultAction %q is invalid." [AString (DefaultAction s)]
   else skip) ;;
  forEach (Syscalls s) (fun sc =>
    if negb (syscallValid sc)
    then Fatalf "syscall %v is invalid." [ASyscall sc]
    else skip) ;;
  forEach (Architectures s) (fun a =>
    if archValid a then skip
    else Fatalf "seccomp architecture %q is invalid" [AString a]).

Definition checkEventHooks (host : Host) (hookType : string)
    (hooks : list Hook) (hostCheck : bool) : M unit :=
  forEach hooks (fun hook =>
    (if negb (filepath_IsAbs (Hook_Path hook))
     then Fatalf "The %s hook %v: is not absolute path"
            [AString hookType; AString (Hook_Path hook)]
     else skip) ;;
    (if hostCheck then
       match os_Stat host (Hook_Path hook) with
       | inr _ => Fatalf "Cannot find %s hook: %v"
                    [AString hookType; AString (Hook_Path hook)]
       | inl fi =>
           if Z.land (Mode fi) 73 =? 0      (* 0111 *)
           then Fatalf "The %s hook %v: is not executable"
                  [AString hookType; AString (Hook_Path hook)]
           else skip
       end
     else skip) ;;
    forEach (Hook_Env hook) (fun env =>
      ok ← envValid env;
      if negb ok
      then Fatalf "Env %q for hook %v is in the invalid form."
             [AString env; AString (Hook_Path hook)]
      else skip)).

Definition checkHooks (host : Host) (hooks : Hooks) (hostCheck : bool) : M unit :=
  checkEventHooks host "pre-start" (Prestart hooks) hostCheck ;;
  checkEventHooks host "post-start" (Poststart hooks) hostCheck ;;
  checkEventHooks host "post-stop" (Poststop hooks) hostCheck.

Definition checkProcess (host : Host) (process : Process) (rootfs : string) : M unit :=
  (if negb (path_IsAbs (Cwd process))
   then Fatalf "cwd %q is not an absolute path" [AString (Cwd process)]
   else skip) ;;
  forEach (Env process) (fun env =>
    ok ← envValid env;
    if negb ok
    then Fatalf "env %q should be in the form of 'key=value'. The left hand side must consist solely of letters, digits, and underscores '_'."
           [AString env]
    else skip) ;;
  forEach (Capabilities process) (fun capability =>
    if negb (capValid capability)
    then Fatalf "capability %q is not valid, man capabilities(7)" [AString capability]
    else skip) ;;
  forEach (Rlimits process) (fun rl =>
    if negb (rlimitValid (Rlimit_Type rl))
    then Fatalf "rlimit type %q is invalid." [AString (Rlimit_Type rl)]
    else skip) ;;
  if 0 <? len (ApparmorProfile process) then
    let profilePath := path_Join [rootfs; "/etc/apparmor.d"; ApparmorProfile process] in
    match os_Stat host profilePath with
    | inr err => Fatal [AError err]
    | inl _ => skip
    end
  else skip.

(** [supportedTypes[k]] on a [map[string]bool]: [false] when [k] is absent. *)
Definition index (supportedTypes : gmap string bool) (k : string) : bool :=
  default false (supportedTypes !! k).

(** The [for s.Scan()] loop of [supportedMountTypes]: the map filled so far
    and the error, if the loop returned one. *)
Fixpoint scanFilesystems (scanned : list (string * option string))
    (supportedTypes : gmap string bool) : gmap string bool * option string :=
  match scanned with
  | [] => (supportedTypes, None)
  | (_, Some err) :: _ => (supportedTypes, Some err)
  | (text, None) :: rest =>
      let parts := strings_Split text "009" in
      scanFilesystems rest
        (if (1 <? length parts)%nat
         then <[nth 1 parts EmptyString := true]> supportedTypes
         else <[nth 0 parts EmptyString := true]> supportedTypes)
  end.

(** The result is Go's pair: the map ([None] for [nil]) and the error. *)
Definition supportedMountTypes (host : Host) (OS : string) (hostCheck : bool)
    : M (option (gmap string bool) * option string) :=
  let supportedTypes : gmap string bool := ∅ in
  if negb (String.eqb OS "linux") && negb (String.eqb OS "windows") then
    Warnf "%v is not supported to check mount type" [AString OS] ;;
    mret (None, None)
  else if String.eqb OS "windows" then
    mret (Some (<["ntfs" := true]> supportedTypes), None)
  else if hostCheck then
    match proc_filesystems host with
    | inr err => mret (None, Some err)
    | inl scanned =>
        match scanFilesystems scanned supportedTypes with
        | (supportedTypes, Some err) => mret (Some supportedTypes, Some err)
        | (supportedTypes, None) =>
            mret (Some (<["bind" := true]> supportedTypes), None)
        end
    end
  else
    Warnf "Checking linux mount types without --host-specific is not supported yet" [] ;;
    mret (None, None).

Definition checkMounts (host : Host) (spec : Spec) (hostCheck : bool) : M unit :=
  r ← supportedMountTypes host (OS (Spec_Platform spec)) hostCheck;
  (match r.2 with
   | Some err => Fatal [AError err]
   | None => skip
   end) ;;
  match r.1 with
  | Some supportedTypes =>
      forEach (Mounts spec) (fun mount =>
        if negb (index supportedTypes (Mount_Type mount))
        then Fatalf "Unsupported mount type %q" [AString (Mount_Type mount)]
        else skip)
  | None => skip
  end.

(** The four locals of [checkLinux] that record the newly created
    namespaces. *)
Record created := {
  utsExists : bool;
  ipcExists : bool;
  mountExists : bool;
  netExists : bool
}.

(** One turn of the loop over [spec.Linux.Namespaces]. *)
Definition checkNamespace (ns : Namespace) (c : created) : M created :=
  if negb (namespaceValid ns) then
    Fatalf "namespace %v is invalid." [ANamespace ns] ;; mret c
  else if len (Namespace_Path ns) =? 0 then
    if String.eqb (Namespace_Type ns) UTSNamespace then
      mret {| utsExists := true; ipcExists := ipcExists c;
              mountExists := mountExists c; netExists := netExists c |}
    else if String.eqb (Namespace_Type ns) IPCNamespace then
      mret {| utsExists := utsExists c; ipcExists := true;
              mountExists := mountExists c; netExists := netExists c |}
    else if String.eqb (Namespace_Type ns) NetworkNamespace then
      mret {| utsExists := utsExists c; ipcExists := ipcExists c;
              mountExists := mountExists c; netExists := true |}
    else if String.eqb (Namespace_Type ns) MountNamespace then
      mret {| utsExists := utsExists c; ipcExists := ipcExists c;
              mountExists := true; netExists := netExists c |}
    else mret c
  else mret c.

Fixpoint checkNamespaces (nss : list Namespace) (c : created) : M created :=
  match nss with
  | [] => mret c
  | ns :: rest => c' ← checkNamespace ns c; checkNamespaces rest c'
  end.

(** The body of the [range] over [spec.Linux.Sysctl]. *)
Definition checkSysctl (c : created) (k : string) : M unit :=
  (if strings_HasPrefix k "net." && negb (netExists c)
   then Fatalf "Sysctl %v requires a new Network namespace to be specified as well"
          [AString k]
   else skip) ;;
  if strings_HasPrefix k "fs.mqueue." then
    if negb (mountExists c) || negb (ipcExists c)
    then Fatalf "Sysctl %v requires a new IPC namespace and Mount namespace to be specified as well"
           [AString k]
    else skip
  else skip.

(** A double quote, for the one format that contains the character. *)
Definition dquote : string := String (Ascii.ascii_of_nat 34) EmptyString.

Definition rootfsPropagationValid (p : string) : bool :=
  existsb (String.eqb p)
    [""; "private"; "rprivate"; "slave"; "rslave"; "shared"; "rshared"].

Definition checkLinux (spec : Spec) : M unit :=
  let linux := Spec_Linux spec in
  let c := {| utsExists := false; ipcExists := false;
              mountExists := false; netExists := false |} in
  (if (5 <? length (UIDMappings linux))%nat
   then Fatalf "Only 5 UID mappings are allowed (linux kernel restriction)." []
   else skip) ;;
  (if (5 <? length (GIDMappings linux))%nat
   then Fatalf "Only 5 GID mappings are allowed (linux kernel restriction)." []
   else skip) ;;
  c ← checkNamespaces (Namespaces linux) c;
  forEach (map_range (Sysctl linux)).*1 (checkSysctl c) ;;
  (if String.eqb (OS (Spec_Platform spec)) "linux" && negb (utsExists c)
      && negb (String.eqb (Hostname spec) "")
   then Fatalf "On Linux, hostname requires a new UTS namespace to be specified as well" []
   else skip) ;;
  forEach (Devices linux) (fun d =>
    if negb (deviceValid d)
    then Fatalf "device %v is invalid." [ADevice d]
    else skip) ;;
  (match Linux_Seccomp linux with
   | Some s => checkSeccomp s
   | None => skip
   end) ;;
  if rootfsPropagationValid (RootfsPropagation linux) then skip
  else Fatalf ("rootfsPropagation must be empty or one of " +:+ dquote
                 +:+ "private|rprivate|slave|rslave|shared|rshared" +:+ dquote) [].

(** *** The presence checker

    The result of the two walkers is Go's pair [(msgs, valid)], or [None]
    when package [reflect] panics. *)

Definition isStruct (v : value) : bool :=
  match v with VStruct _ _ => true | _ => false end.

Definition isStructPtr (v : value) : bool :=
  match v with VStructPtr _ _ | VNilStructPtr _ => true | _ => false end.

(** [Value.IsNil()] of a pointer. *)
Definition IsNil (v : value) : bool :=
  match v with
  | VNilStructPtr _ => true
  | VPtr isNil => isNil
  | _ => false
  end.

Definition omitempty (tagField : StructField) : bool :=
  strings_Contains (Tag_json tagField) "omitempty".

(** [fmt.Sprintf("'%s.%s' should not be empty.", parent, name)] *)
Definition shouldNotBeEmpty_dot (parent name : string) : string :=
  "'" +:+ parent +:+ "." +:+ name +:+ "' should not be empty.".

(** [fmt.Sprintf("'%s.%s' should not be empty", parent, name)] *)
Definition shouldNotBeEmpty (parent name : string) : string :=
  "'" +:+ parent +:+ "." +:+ name +:+ "' should not be empty".

(** [if ms, ok := ...; !ok { msgs = append(msgs, ms...); valid = false }]
    followed by the rest of the loop. *)
Definition collect (step rest : option (list string * bool))
    : option (list string * bool) :=
  match step, rest with
  | Some (ms, ok), Some (msgs, valid) =>
      if ok then Some (msgs, valid) else Some (ms ++ msgs, false)
  | _, _ => None
  end.

(** The loops of [checkMandatoryUnit] over the elements of a slice and the
    values of a map; [rec] is [checkMandatory]. *)
Fixpoint checkElems (rec : value -> option (list string * bool))
    (canInterface : bool) (elems : list value) : option (list string * bool) :=
  match elems with
  | [] => Some ([], true)
  | mValue :: rest =>
      collect (if canInterface then rec mValue else Some ([], true))
              (checkElems rec canInterface rest)
  end.

Definition checkMandatoryUnit (rec : value -> option (list string * bool))
    (field : value) (tagField : StructField) (parent : string)
    : option (list string * bool) :=
  let mandatory := negb (omitempty tagField) in
  match field with
  | VStructPtr _ _ | VNilStructPtr _ | VPtr _ =>
      if mandatory && IsNil field
      then Some ([shouldNotBeEmpty_dot parent (Name tagField)], false)
      else Some ([], true)
  | VString s =>
      if mandatory && (len s =? 0)
      then Some ([shouldNotBeEmpty_dot parent (Name tagField)], false)
      else Some ([], true)
  | VSlice elems =>
      if mandatory && Nat.eqb (length elems) 0
      then Some ([shouldNotBeEmpty_dot parent (Name tagField)], false)
      else checkElems rec (exported tagField) elems
  | VMap vals =>
      if mandatory && Nat.eqb (length vals) 0
      then Some ([shouldNotBeEmpty_dot parent (Name tagField)], false)
      else checkElems rec (exported tagField) vals
  | VStruct _ _ | VOther => Some ([], true)
  end.

(** One turn of the loop of [checkMandatory] over the fields of a struct of
    type [tname]; [rec] is [checkMandatory] itself. *)
Definition checkField (rec : value -> option (list string * bool))
    (tname : string) (tagField : StructField) (field : value)
    : option (list string * bool) :=
  if isStructPtr field && IsNil field then
    if negb (omitempty tagField)
    then Some ([shouldNotBeEmpty tname (Name tagField)], false)
    else Some ([], true)
  else if (isStruct field || isStructPtr field) && exported tagField
  then rec field
  else checkMandatoryUnit rec field tagField tname.

Fixpoint checkFields (rec : value -> option (list string * bool))
    (tname : string) (fields : list (StructField * value))
    : option (list string * bool) :=
  match fields with
  | [] => Some ([], true)
  | (tagField, field) :: rest =>
      collect (checkField rec tname tagField field)
              (checkFields rec tname rest)
  end.

(** Of a nil pointer to a struct, [objV.Elem()] is the zero [Value], and
    [objV.Field(i)] panics as soon as the struct type has a field. *)
Fixpoint checkMandatory (obj : value) : option (list string * bool) :=
  match obj with
  | VStruct tname fields => checkFields checkMandatory tname fields
  | VStructPtr tname fields => checkFields checkMandatory tname fields
  | VNilStructPtr numField =>
      match numField with O => Some ([], true) | S _ => None end
  | _ => Some ([], true)
  end.

Definition checkMandatoryField (obj : value) : M unit :=
  match checkMandatory obj with
  | None => panic
  | Some (msgs, valid) =>
      if negb valid
      then Fatalf "Mandatory information missing: %s." [AStrings msgs]
      else skip
  end.

Definition bundleValidate (host : Host) (spec : Spec) (rootfs : string)
    (hostCheck : bool) : M unit :=
  checkMandatoryField (reflect_Spec spec) ;;
  checkSemVer (Version spec) ;;
  checkPlatform (Spec_Platform spec) ;;
  checkProcess host (Spec_Process spec) rootfs ;;
  checkMounts host spec hostCheck ;;
  checkLinux spec ;;
  checkHooks host (Spec_Hooks spec) hostCheck.

End Validate.

(** ** The vocabulary of the properties *)

(** Induction over a [value] and the values inside it. *)
Section ValueInduction.
Variable P : value -> Prop.
Hypothesis HStruct : forall tname fields,
  Forall (fun fv => P fv.2) fields -> P (VStruct tname fields).
Hypothesis HStructPtr : forall tname fields,
  Forall (fun fv => P fv.2) fields -> P (VStructPtr tname fields).
Hypothesis HNil : forall n, P (VNilStructPtr n).
Hypothesis HPtr : forall b, P (VPtr b).
Hypothesis HString : forall s, P (VString s).
Hypothesis HSlice : forall elems, Forall P elems -> P (VSlice elems).
Hypothesis HMap : forall vals, Forall P vals -> P (VMap vals).
Hypothesis HOther : P VOther.

Fixpoint value_induction (v : value) : P v :=
  let all_fields :=
    fix go (fields : list (StructField * value))
      : Forall (fun fv => P fv.2) fields :=
      match fields with
      | [] => @List.Forall_nil _ (fun fv => P fv.2)
      | (f, x) :: rest =>
          @List.Forall_cons _ (fun fv => P fv.2) (f, x) rest
            (value_induction x) (go rest)
      end in
  let all_elems :=
    fix go (elems : list value) : Forall P elems :=
      match elems with
      | [] => @List.Forall_nil _ P
      | e :: rest => @List.Forall_cons _ P e rest (value_induction e) (go rest)
      end in
  match v with
  | VStruct tname fields => HStruct tname fields (all_fields fields)
  | VStructPtr tname fields => HStructPtr tname fields (all_fields fields)
  | VNilStructPtr n => HNil n
  | VPtr b => HPtr b
  | VString s => HString s
  | VSlice elems => HSlice elems (all_elems elems)
  | VMap vals => HMap vals (all_elems vals)
  | VOther => HOther
  end.

End ValueInduction.

(** The bytes of a string. *)
Definition bytes (s : string) : list ascii := list_ascii_of_string s.

(** The grammar of a key: letters, digits and the underscore. *)
Definition keyRune `{GoLib} (ch : rune) : bool :=
  unicode_IsDigit ch || unicode_IsLetter ch || (ch =? 95).

(** [env] is [key=value]: [key] is the text before the first [=], and the
    runes of [key], white space at its two ends apart, are letters, digits
    and underscores.  A key with no rune at all satisfies this. *)
Definition keyValue `{GoLib} (env : string) : Prop :=
  exists key value,
    env = key +:+ String "=" value /\ ("="%char ∉ bytes key) /\
    forallb keyRune (TrimSpace_runes key) = true.

(** The entry [ns] is of kind [t] and has an empty path: the namespace is
    created anew, not joined. *)
Definition newly (t : string) (ns : Namespace) : bool :=
  String.eqb (Namespace_Type ns) t && (len (Namespace_Path ns) =? 0).

(** The flags as [checkLinux] initialises them. *)
Definition noneCreated : created :=
  {| utsExists := false; ipcExists := false;
     mountExists := false; netExists := false |}.

(** The flags after the namespaces [nss], starting from [c]. *)
Definition track `{SpecsGo} (c : created) (nss : list Namespace) : created :=
  {| utsExists := utsExists c || existsb (newly UTSNamespace) nss;
     ipcExists := ipcExists c || existsb (newly IPCNamespace) nss;
     mountExists := mountExists c || existsb (newly MountNamespace) nss;
     netExists := netExists c || existsb (newly NetworkNamespace) nss |}.

(** A namespace of kind [t] is declared with an empty path. *)
Definition declaredNew (nss : list Namespace) (t : string) : Prop :=
  exists ns, ns ∈ nss /\ Namespace_Type ns = t /\ Namespace_Path ns = "".

(** The filesystem type a line of [/proc/filesystems] registers: the second
    of its tab-separated columns, or the line itself if it has no tab. *)
Definition filesystemType (text : string) : string :=
  let parts := strings_Split text "009" in
  if (1 <? length parts)%nat then nth 1 parts EmptyString
  else nth 0 parts EmptyString.

(** *** What the spec calls a violation

    A required field (one whose tag has no [omitempty]) is violated when it
    is absent or empty: a nil pointer, a text of length 0, a sequence or a
    mapping with no element.  Numbers and booleans are never absent. *)
Definition absent (v : value) : bool :=
  match v with
  | VNilStructPtr _ => true
  | VPtr isNil => isNil
  | VString s => String.eqb s ""
  | VSlice elems => match elems with [] => true | _ => false end
  | VMap vals => match vals with [] => true | _ => false end
  | _ => false
  end.

(** The violated fields below the field [tagField] of a struct of type
    [tname], the field itself included, as (parent, field name); [rec] lists
    the violations inside a record.  The walk goes on into a record, into
    the record behind a pointer, and into every element of a sequence or
    mapping, required or not. *)
Definition fieldViolations (rec : value -> list (string * string))
    (tname : string) (tagField : StructField) (field : value)
    : list (string * string) :=
  if negb (omitempty tagField) && absent field then [(tname, Name tagField)]
  else if exported tagField then
    match field with
    | VStruct _ _ | VStructPtr _ _ => rec field
    | VSlice elems => flat_map rec elems
    | VMap vals => flat_map rec vals
    | _ => []
    end
  else [].

(** Every violated field of the tree, in the order of the document. *)
Fixpoint violations (v : value) : list (string * string) :=
  match v with
  | VStruct tname fields =>
      flat_map (fun fv => fieldViolations violations tname fv.1 fv.2) fields
  | VStructPtr tname fields =>
      flat_map (fun fv => fieldViolations violations tname fv.1 fv.2) fields
  | _ => []
  end.

(** A message names the field [field] of [parent]. *)
Definition names (msg : string) (violated : string * string) : Prop :=
  msg = shouldNotBeEmpty violated.1 violated.2 \/
  msg = shouldNotBeEmpty_dot violated.1 violated.2.

(** What the walker enters below a field: the record, the record behind the
    pointer, the elements of the sequence or mapping. *)
Definition walkable (rec : value -> bool) (field : value) : bool :=
  match field with
  | VStruct _ _ | VStructPtr _ _ => rec field
  | VSlice elems => forallb rec elems
  | VMap vals => forallb rec vals
  | _ => true
  end.

(** No sequence or mapping of the tree holds a nil pointer to a struct with
    fields: the trees [reflect] walks without a panic. *)
Fixpoint reflectable (v : value) : bool :=
  match v with
  | VStruct _ fields => forallb (fun fv => walkable reflectable fv.2) fields
  | VStructPtr _ fields => forallb (fun fv => walkable reflectable fv.2) fields
  | VNilStructPtr (S _) => false
  | _ => true
  end.

(** The walker's result [r] reports exactly the violations [vs]. *)
Definition reports (r : option (list string * bool))
    (vs : list (string * string)) : Prop :=
  exists msgs valid,
    r = Some (msgs, valid) /\ Forall2 names msgs vs /\
    (valid = false <-> vs <> []).

(** The walker on a tree, and on a tree met as a field of a struct. *)
Definition walked (v : value) : Prop :=
  (reflectable v = true -> reports (checkMandatory v) (violations v)) /\
  (forall tname tagField,
     walkable reflectable v = true ->
     reports (checkField checkMandatory tname tagField v)
             (fieldViolations violations tname tagField v)).

(** The type name and the fields of a record, or of the record behind a
    pointer. *)
Definition fieldsOf (v : value) : option (string * list (StructField * value)) :=
  match v with
  | VStruct tname fields => Some (tname, fields)
  | VStructPtr tname fields => Some (tname, fields)
  | _ => None
  end.

(** [inside field y]: walking the field value [field], the next value met is
    [y]: the record itself, the record behind the pointer, an element of the
    sequence, a value of the mapping. *)
Inductive inside : value -> value -> Prop :=
| inside_struct tname fields :
    inside (VStruct tname fields) (VStruct tname fields)
| inside_pointer tname fields :
    inside (VStructPtr tname fields) (VStructPtr tname fields)
| inside_slice elems e : e ∈ elems -> inside (VSlice elems) e
| inside_map vals e : e ∈ vals -> inside (VMap vals) e.

(** [Violated v (parent, name)]: somewhere in the tree [v] the required field
    [name] of a record of type [parent] is absent or empty. *)
Inductive Violated : value -> string * string -> Prop :=
| Violated_here v tname fields tagField field :
    fieldsOf v = Some (tname, fields) ->
    (tagField, field) ∈ fields ->
    omitempty tagField = false -> absent field = true ->
    Violated v (tname, Name tagField)
| Violated_below v tname fields tagField field y violated :
    fieldsOf v = Some (tname, fields) ->
    (tagField, field) ∈ fields ->
    exported tagField = true -> inside field y -> Violated y violated ->
    Violated v violated.

(** The verdict of the loop of [checkPlatform] on the entry of the OS. *)
Definition platformVerdict (platform : Platform) (archs : option (list string))
    : M unit :=
  match archs with
  | Some archs =>
      if existsb (fun arch => String.eqb arch (Arch platform)) archs
      then skip
      else Fatalf "Combination of %q and %q is invalid."
             [AString (OS platform); AString (Arch platform)]
  | None => Fatalf "Operation system %q of the bundle is not supported yet."
              [AString (OS platform)]
  end.

(** The two messages of the loop over the sysctl keys. *)
Definition sysctlDiagnostic (e : Entry) : Prop :=
  level e = FatalLevel /\
  exists k, args e = [AString k] /\
    (format e = "Sysctl %v requires a new Network namespace to be specified as well" \/
     format e = "Sysctl %v requires a new IPC namespace and Mount namespace to be specified as well").

(** Two runs are alike when they are equal, or both stop on a message of the
    sysctl loop after the same output. *)
Definition alike {A : Type} (m1 m2 : M A) : Prop :=
  m1 = m2 \/
  exists pre e1 e2,
    m1 = (pre ++ [e1], Exits) /\ m2 = (pre ++ [e2], Exits) /\
    sysctlDiagnostic e1 /\ sysctlDiagnostic e2.

(** *** The vocabulary of the further properties *)

(** A hook the hooks check lets through: its path is absolute; under host
    inspection the path exists and one of its three execute bits is set; and
    every entry of its environment is of the form [keyValue]. *)
Definition hookAccepted `{GoLib} (host : Host) (hostCheck : bool)
    (hook : Hook) : Prop :=
  filepath_IsAbs (Hook_Path hook) = true /\
  (hostCheck = true ->
   exists fi, os_Stat host (Hook_Path hook) = inl fi /\
              Z.land (Mode fi) 73 <> 0) /\
  Forall keyValue (Hook_Env hook).

(** The advisory of [envValid] about [env]. *)
Definition digitAdvisory (env : string) : Entry :=
  {| level := WarnLevel;
     format := "Env %v: variable name beginning with digit is not recommended.";
     args := [AString env] |}.

(** The discipline of the output: warnings only, except that a run that
    ends in [os.Exit] has one fatal entry, its last. *)
Definition isWarning (e : Entry) : Prop := level e = WarnLevel.

Definition disciplined {A : Type} (m : M A) : Prop :=
  match result m with
  | Exits =>
      exists pre e,
        output m = pre ++ [e] /\ Forall isWarning pre /\ level e = FatalLevel
  | _ => Forall isWarning (output m)
  end.

(** The three dependencies of [checkLinux] on newly created namespaces. *)
Definition dependenciesMet `{SpecsGo} (spec : Spec) : Prop :=
  let linux := Spec_Linux spec in
  (forall k, is_Some (Sysctl linux !! k) ->
     strings_HasPrefix k "net." = true ->
     declaredNew (Namespaces linux) NetworkNamespace) /\
  (forall k, is_Some (Sysctl linux !! k) ->
     strings_HasPrefix k "fs.mqueue." = true ->
     declaredNew (Namespaces linux) MountNamespace /\
     declaredNew (Namespaces linux) IPCNamespace) /\
  (Hostname spec <> "" -> OS (Spec_Platform spec) = "linux" ->
   declaredNew (Namespaces linux) UTSNamespace).

(** The checks of [bundleValidate] in their order, and a sequence of checks
    run one after the other. *)
Definition checks `{GoLib} `{SpecsGo} `{PackageMain} `{GoRuntime}
    (host : Host) (spec : Spec) (rootfs : string) (hostCheck : bool)
    : list (M unit) :=
  [checkMandatoryField (reflect_Spec spec);
   checkSemVer (Version spec);
   checkPlatform (Spec_Platform spec);
   checkProcess host (Spec_Process spec) rootfs;
   checkMounts host spec hostCheck;
   checkLinux spec;
   checkHooks host (Spec_Hooks spec) hostCheck].

Fixpoint runAll (stages : list (M unit)) : M unit :=
  match stages with
  | [] => skip
  | stage :: rest => stage ;; runAll rest
  end.

(** ** Instances for the examples

    The theorems below hold for every implementation of the outside
    packages; the examples run the validator on these. *)

(** [lo <= r <= hi] *)
Definition inRange (lo hi r : Z) : bool := (lo <=? r) && (r <=? hi).

(** [unicode]'s classes on the Latin-1 range U+0000..U+00FF, where Go
    itself answers from a 256-entry table; no rune above is classified. *)
Definition latin1_IsDigit (r : rune) : bool := inRange 48 57 r.

Definition latin1_IsLetter (r : rune) : bool :=
  inRange 65 90 r || inRange 97 122 r || (r =? 170) || (r =? 181)
  || (r =? 186) || inRange 192 214 r || inRange 216 246 r || inRange 248 255 r.

Definition latin1_IsSpace (r : rune) : bool :=
  inRange 9 13 r || (r =? 32) || (r =? 133) || (r =? 160).

(** Modelled from the spec: the profile is looked up at
    [<rootfs>/etc/apparmor.d/<profile>]; the elements are joined with one
    slash between them. *)
Fixpoint join_slash (elems : list string) : string :=
  match elems with
  | [] => ""
  | [e] => e
  | e :: (e' :: _) as rest =>
      if String.prefix "/" e' then e +:+ join_slash rest
      else e +:+ "/" +:+ join_slash rest
  end.

(** Modelled from the spec: "parse VersionTag per semantic-versioning
    grammar": MAJOR.MINOR.PATCH, each a number without a leading zero, then
    an optional pre-release after [-] and optional build metadata after [+],
    both dot-separated identifiers of letters, digits and hyphens. *)
Definition isDigitByte (a : ascii) : bool := inRange 48 57 (byteZ a).

Definition isIdentByte (a : ascii) : bool :=
  isDigitByte a || inRange 65 90 (byteZ a) || inRange 97 122 (byteZ a)
  || (byteZ a =? 45).

Definition all_bytes (f : ascii -> bool) (s : string) : bool :=
  forallb f (list_ascii_of_string s).

Definition semver_numeric (s : string) : bool :=
  match s with
  | EmptyString => false
  | String "0" EmptyString => true
  | String "0" _ => false
  | _ => all_bytes isDigitByte s
  end.

Definition semver_prerelease_ident (s : string) : bool :=
  negb (String.eqb s "") && all_bytes isIdentByte s
  && (negb (all_bytes isDigitByte s) || semver_numeric s).

Definition semver_build_ident (s : string) : bool :=
  negb (String.eqb s "") && all_bytes isIdentByte s.

(** [cut s sep]: the text before the first [sep], and the text after it if
    there is one. *)
Fixpoint cut (s : string) (sep : ascii) : string * option string :=
  match s with
  | EmptyString => (EmptyString, None)
  | String c s' =>
      if Ascii.eqb c sep then (EmptyString, Some s')
      else let '(before, after) := cut s' sep in (String c before, after)
  end.

(** Modelled from the spec: the semantic-versioning grammar as a whole. *)
Definition semver_grammar (v : string) : bool :=
  let '(rest, build) := cut v "+" in
  let '(core, pre) := cut rest "-" in
  match strings_Split core "." with
  | [major; minor; patch] =>
      semver_numeric major && semver_numeric minor && semver_numeric patch
  | _ => false
  end
  && match pre with
     | Some p => forallb semver_prerelease_ident (strings_Split p ".")
     | None => true
     end
  && match build with
     | Some b => forallb semver_build_ident (strings_Split b ".")
     | None => true
     end.

(** The outside packages of the examples. *)
Definition latin1 : GoLib := {|
  unicode_IsDigit := latin1_IsDigit;
  unicode_IsLetter := latin1_IsLetter;
  unicode_IsSpace := latin1_IsSpace;
  path_Join := join_slash;
  semver_Parse := fun v =>
    if semver_grammar v then None else Some "Invalid semantic version"
|}.

(** A whitelist for the examples, which use no capability outside it. *)
Definition someCaps : PackageMain :=
  {| defaultCaps := ["CAP_CHOWN"; "CAP_KILL"; "CAP_NET_RAW"] |}.

(** Two runtimes: one visits a map in the order of [map_to_list], the other
    in the opposite order. *)
Program Definition forwards : GoRuntime :=
  {| map_range := fun V m => map_to_list m |}.
Next Obligation. reflexivity. Qed.

Program Definition backwards : GoRuntime :=
  {| map_range := fun V m => reverse (map_to_list m) |}.
Next Obligation. intros. apply reverse_Permutation. Qed.

(** A host with no file at all, and one whose kernel registers two
    filesystem types and where every path is an executable file. *)
Definition emptyHost : Host :=
  {| os_Stat := fun _ => inr "no such file or directory";
     proc_filesystems := inr "open /proc/filesystems: no such file or directory" |}.

Definition someHost : Host :=
  {| os_Stat := fun _ => inl {| Mode := 493; IsDir := false |};
     proc_filesystems :=
       inl [("nodev" +:+ String "009" "proc", None);
            (String "009" "ext4", None)] |}.

(** *** The struct declarations

    Modelled from the spec: the data model of the configuration (section 3).
    The fields are the ones the records above have, under the names
    [validate.go] reads them by; a field the spec marks optional carries
    [omitempty], every other field is required.  Integers are a kind the
    walker never inspects. *)

(** A required and an optional field. *)
Definition required (name tag : string) : StructField :=
  {| Name := name; Tag_json := tag; exported := true |}.

Definition optional (name tag : string) : StructField :=
  {| Name := name; Tag_json := tag +:+ ",omitempty"; exported := true |}.

Definition strings_value (l : list string) : value := VSlice (map VString l).

Definition reflect_Platform (p : Platform) : value :=
  VStruct "Platform"
    [(required "OS" "os", VString (OS p));
     (required "Arch" "arch", VString (Arch p))].

Definition reflect_Rlimit (r : Rlimit) : value :=
  VStruct "Rlimit" [(required "Type" "type", VString (Rlimit_Type r))].

Definition reflect_Process (p : Process) : value :=
  VStruct "Process"
    [(required "Cwd" "cwd", VString (Cwd p));
     (required "Env" "env", strings_value (Env p));
     (required "Capabilities" "capabilities", strings_value (Capabilities p));
     (required "Rlimits" "rlimits", VSlice (map reflect_Rlimit (Rlimits p)));
     (optional "ApparmorProfile" "apparmorProfile", VString (ApparmorProfile p))].

Definition reflect_Mount (m : Mount) : value :=
  VStruct "Mount" [(required "Type" "type", VString (Mount_Type m))].

Definition reflect_Hook (h : Hook) : value :=
  VStruct "Hook"
    [(required "Path" "path", VString (Hook_Path h));
     (required "Env" "env", strings_value (Hook_Env h))].

Definition reflect_Hooks (h : Hooks) : value :=
  VStruct "Hooks"
    [(required "Prestart" "prestart", VSlice (map reflect_Hook (Prestart h)));
     (required "Poststart" "poststart", VSlice (map reflect_Hook (Poststart h)));
     (required "Poststop" "poststop", VSlice (map reflect_Hook (Poststop h)))].

Definition reflect_IDMapping (_ : IDMapping) : value :=
  VStruct "IDMapping"
    [(required "HostID" "hostID", VOther);
     (required "ContainerID" "containerID", VOther);
     (required "Size" "size", VOther)].

Definition reflect_Namespace (n : Namespace) : value :=
  VStruct "Namespace"
    [(required "Type" "type", VString (Namespace_Type n));
     (optional "Path" "path", VString (Namespace_Path n))].

Definition reflect_Device (d : Device) : value :=
  VStruct "Device"
    [(required "Type" "type", VString (Device_Type d));
     (required "Major" "major", VOther);
     (required "Minor" "minor", VOther)].

Definition reflect_Arg (a : Arg) : value :=
  VStruct "Arg" [(required "Op" "op", VString (Op a))].

Definition reflect_Syscall (s : Syscall) : value :=
  VStruct "Syscall"
    [(required "Action" "action", VString (Syscall_Action s));
     (required "Args" "args", VSlice (map reflect_Arg (Syscall_Args s)))].

Definition reflect_Seccomp (s : option Seccomp) : value :=
  match s with
  | None => VNilStructPtr 3
  | Some s =>
      VStructPtr "Seccomp"
        [(required "DefaultAction" "defaultAction", VString (DefaultAction s));
         (required "Architectures" "architectures", strings_value (Architectures s));
         (required "Syscalls" "syscalls", VSlice (map reflect_Syscall (Syscalls s)))]
  end.

Definition reflect_Linux (l : Linux) : value :=
  VStruct "Linux"
    [(required "UIDMappings" "uidMappings", VSlice (map reflect_IDMapping (UIDMappings l)));
     (required "GIDMappings" "gidMappings", VSlice (map reflect_IDMapping (GIDMappings l)));
     (required "Sysctl" "sysctl", VMap (map (fun kv => VString kv.2) (map_to_list (Sysctl l))));
     (required "Namespaces" "namespaces", VSlice (map reflect_Namespace (Namespaces l)));
     (required "Devices" "devices", VSlice (map reflect_Device (Devices l)));
     (optional "Seccomp" "seccomp", reflect_Seccomp (Linux_Seccomp l));
     (optional "RootfsPropagation" "rootfsPropagation", VString (RootfsPropagation l))].

(** Modelled from the spec: the configuration of section 3 as [reflect]
    shows it. *)
Definition reflect_data_model (s : Spec) : value :=
  VStruct "Spec"
    [(required "Version" "ociVersion", VString (Version s));
     (required "Platform" "platform", reflect_Platform (Spec_Platform s));
     (required "Process" "process", reflect_Process (Spec_Process s));
     (required "Hostname" "hostname", VString (Hostname s));
     (required "Mounts" "mounts", VSlice (map reflect_Mount (Mounts s)));
     (required "Hooks" "hooks", reflect_Hooks (Spec_Hooks s));
     (required "Linux" "linux", reflect_Linux (Spec_Linux s))].

(** Modelled from the spec: the supported version is ["1.0.0"] (section 8);
    the constants carry the names the glossary gives the namespace kinds and
    the libseccomp names of actions, architectures and operators. *)
Program Definition specs_go : SpecsGo := {|
  rspec_Version := "1.0.0";
  PIDNamespace := "pid";
  NetworkNamespace := "network";
  MountNamespace := "mount";
  IPCNamespace := "ipc";
  UTSNamespace := "uts";
  UserNamespace := "user";
  CgroupNamespace := "cgroup";
  ActKill := "SCMP_ACT_KILL";
  ActTrap := "SCMP_ACT_TRAP";
  ActErrno := "SCMP_ACT_ERRNO";
  ActTrace := "SCMP_ACT_TRACE";
  ActAllow := "SCMP_ACT_ALLOW";
  ArchX86 := "SCMP_ARCH_X86";
  ArchX86_64 := "SCMP_ARCH_X86_64";
  ArchX32 := "SCMP_ARCH_X32";
  ArchARM := "SCMP_ARCH_ARM";
  ArchAARCH64 := "SCMP_ARCH_AARCH64";
  ArchMIPS := "SCMP_ARCH_MIPS";
  ArchMIPS64 := "SCMP_ARCH_MIPS64";
  ArchMIPS64N32 := "SCMP_ARCH_MIPS64N32";
  ArchMIPSEL := "SCMP_ARCH_MIPSEL";
  ArchMIPSEL64 := "SCMP_ARCH_MIPSEL64";
  ArchMIPSEL64N32 := "SCMP_ARCH_MIPSEL64N32";
  ArchPPC := "SCMP_ARCH_PPC";
  ArchPPC64 := "SCMP_ARCH_PPC64";
  ArchPPC64LE := "SCMP_ARCH_PPC64LE";
  ArchS390 := "SCMP_ARCH_S390";
  ArchS390X := "SCMP_ARCH_S390X";
  OpNotEqual := "SCMP_CMP_NE";
  OpLessThan := "SCMP_CMP_LT";
  OpLessEqual := "SCMP_CMP_LE";
  OpEqualTo := "SCMP_CMP_EQ";
  OpGreaterEqual := "SCMP_CMP_GE";
  OpGreaterThan := "SCMP_CMP_GT";
  OpMaskedEqual := "SCMP_CMP_MASKED_EQ";
  reflect_Spec := reflect_data_model
|}.
Next Obligation. apply (bool_decide_unpack _). vm_compute. reflexivity. Qed.

(** ** The inputs of the examples *)

(** A process whose one environment entry has an empty key. *)
Definition emptyKeyProcess : Process :=
  {| Cwd := "/"; Env := ["=value"]; Capabilities := []; Rlimits := [];
     ApparmorProfile := "" |}.

(** A process with a plain entry, one with blanks around the key, and one
    with an empty key. *)
Definition plainProcess : Process :=
  {| Cwd := "/"; Env := ["PATH=/usr/bin"; " TERM =xterm"; "=value"];
     Capabilities := ["CAP_KILL"]; Rlimits := []; ApparmorProfile := "" |}.

(** A pipe with a negative major number. *)
Definition negativePipe : Device :=
  {| Device_Type := "p"; Major := -1; Minor := 0 |}.

(** Two UTS entries, one joined and one created, and a joined Network
    entry. *)
Definition twoUTS : list Namespace :=
  [{| Namespace_Type := "uts"; Namespace_Path := "/proc/1/ns/uts" |};
   {| Namespace_Type := "uts"; Namespace_Path := "" |};
   {| Namespace_Type := "network"; Namespace_Path := "/proc/1/ns/net" |}].

(** A configuration with the sysctl key [net.ipv4.ip_forward] and the
    namespaces [nss]. *)
Definition forwardingSpec (nss : list Namespace) : Spec :=
  {| Version := "1.0.0";
     Spec_Platform := {| OS := "linux"; Arch := "amd64" |};
     Spec_Process := {| Cwd := "/"; Env := []; Capabilities := [];
                        Rlimits := []; ApparmorProfile := "" |};
     Hostname := "";
     Mounts := [];
     Spec_Hooks := {| Prestart := []; Poststart := []; Poststop := [] |};
     Spec_Linux := {| UIDMappings := []; GIDMappings := [];
                      Sysctl := {[ "net.ipv4.ip_forward" := "1" ]};
                      Namespaces := nss; Devices := [];
                      Linux_Seccomp := None; RootfsPropagation := "" |} |}.

(** A Network namespace to be created. *)
Definition newNetwork : Namespace :=
  {| Namespace_Type := "network"; Namespace_Path := "" |}.

(** A configuration with three mounts, and the mount types [someHost]
    supports. *)
Definition threeMounts : Spec :=
  {| Version := "1.0.0";
     Spec_Platform := {| OS := "linux"; Arch := "amd64" |};
     Spec_Process := {| Cwd := "/"; Env := []; Capabilities := [];
                        Rlimits := []; ApparmorProfile := "" |};
     Hostname := "";
     Mounts := [{| Mount_Type := "proc" |}; {| Mount_Type := "bind" |};
                {| Mount_Type := "ext4" |}];
     Spec_Hooks := {| Prestart := []; Poststart := []; Poststop := [] |};
     Spec_Linux := {| UIDMappings := []; GIDMappings := []; Sysctl := ∅;
                      Namespaces := []; Devices := [];
                      Linux_Seccomp := None; RootfsPropagation := "" |} |}.

Definition someHostTypes : gmap string bool :=
  <["bind" := true]> (<["ext4" := true]> (<["proc" := true]> ∅)).

(** A process with no working directory and a mount with no type. *)
Definition twoMissing : value :=
  reflect_data_model
    {| Version := "1.0.0";
       Spec_Platform := {| OS := "linux"; Arch := "amd64" |};
       Spec_Process := {| Cwd := ""; Env := ["A=1"]; Capabilities := ["CAP_KILL"];
                          Rlimits := [{| Rlimit_Type := "RLIMIT_CPU" |}];
                          ApparmorProfile := "" |};
       Hostname := "h";
       Mounts := [{| Mount_Type := "proc" |}; {| Mount_Type := "" |}];
       Spec_Hooks := {| Prestart := [{| Hook_Path := "/a"; Hook_Env := ["A=1"] |}];
                        Poststart := [{| Hook_Path := "/a"; Hook_Env := ["A=1"] |}];
                        Poststop := [{| Hook_Path := "/a"; Hook_Env := ["A=1"] |}] |};
       Spec_Linux := {| UIDMappings := [{| HostID := 0; ContainerID := 0; Size := 1 |}];
                        GIDMappings := [{| HostID := 0; ContainerID := 0; Size := 1 |}];
                        Sysctl := {[ "kernel.shmmax" := "1" ]};
                        Namespaces := [{| Namespace_Type := "uts"; Namespace_Path := "" |}];
                        Devices := [{| Device_Type := "c"; Major := 1; Minor := 3 |}];
                        Linux_Seccomp := None; RootfsPropagation := "" |} |}.

(** A struct [Linux] whose pointer field [Seccomp] and whose text field
    [RootfsPropagation] are both required and both absent. *)
Definition requiredSeccomp : value :=
  VStruct "Linux"
    [(required "Seccomp" "seccomp", VNilStructPtr 3);
     (required "RootfsPropagation" "rootfsPropagation", VString "")].

(** A configuration with every required field present and two sysctl keys
    under [net.], but no Network namespace. *)
Definition twoSysctl : Spec :=
  {| Version := "1.0.0";
     Spec_Platform := {| OS := "linux"; Arch := "amd64" |};
     Spec_Process := {| Cwd := "/"; Env := ["PATH=/bin"];
                        Capabilities := ["CAP_KILL"];
                        Rlimits := [{| Rlimit_Type := "RLIMIT_CPU" |}];
                        ApparmorProfile := "" |};
     Hostname := "h";
     Mounts := [{| Mount_Type := "proc" |}];
     Spec_Hooks := {| Prestart := [{| Hook_Path := "/bin/a"; Hook_Env := ["A=1"] |}];
                      Poststart := [{| Hook_Path := "/bin/a"; Hook_Env := ["A=1"] |}];
                      Poststop := [{| Hook_Path := "/bin/a"; Hook_Env := ["A=1"] |}] |};
     Spec_Linux := {| UIDMappings := [{| HostID := 0; ContainerID := 0; Size := 1 |}];
                      GIDMappings := [{| HostID := 0; ContainerID := 0; Size := 1 |}];
                      Sysctl := <["net.a" := "1"]> {[ "net.b" := "1" ]};
                      Namespaces := [{| Namespace_Type := "uts"; Namespace_Path := "" |}];
                      Devices := [{| Device_Type := "c"; Major := 1; Minor := 3 |}];
                      Linux_Seccomp := None;
                      RootfsPropagation := "" |} |}.

(** A configuration with [n] UID mappings. *)
Definition withMappings (n : nat) : Spec :=
  {| Version := "1.0.0";
     Spec_Platform := {| OS := "linux"; Arch := "amd64" |};
     Spec_Process := {| Cwd := "/"; Env := []; Capabilities := [];
                        Rlimits := []; ApparmorProfile := "" |};
     Hostname := "";
     Mounts := [];
     Spec_Hooks := {| Prestart := []; Poststart := []; Poststop := [] |};
     Spec_Linux := {| UIDMappings :=
                        repeat {| HostID := 0; ContainerID := 0; Size := 1 |} n;
                      GIDMappings := []; Sysctl := ∅;
                      Namespaces := []; Devices := [];
                      Linux_Seccomp := None; RootfsPropagation := "" |} |}.

(** A configuration that names a profile. *)
Definition withProfile : Spec :=
  {| Version := "1.0.0";
     Spec_Platform := {| OS := "linux"; Arch := "amd64" |};
     Spec_Process := {| Cwd := "/"; Env := ["PATH=/bin"];
                        Capabilities := ["CAP_KILL"];
                        Rlimits := [{| Rlimit_Type := "RLIMIT_CPU" |}];
                        ApparmorProfile := "docker-default" |};
     Hostname := "h";
     Mounts := [{| Mount_Type := "proc" |}];
     Spec_Hooks := Spec_Hooks twoSysctl;
     Spec_Linux := {| UIDMappings := UIDMappings (Spec_Linux twoSysctl);
                      GIDMappings := GIDMappings (Spec_Linux twoSysctl);
                      Sysctl := {[ "kernel.shmmax" := "1" ]};
                      Namespaces := Namespaces (Spec_Linux twoSysctl);
                      Devices := Devices (Spec_Linux twoSysctl);
                      Linux_Seccomp := None;
                      RootfsPropagation := "" |} |}.

(** A list of hooks held by pointer, one of them nil. *)
Definition hooksByPointer : value :=
  VStruct "Hooks"
    [(optional "Prestart" "prestart",
      VSlice [VStructPtr "Hook" [(required "Path" "path", VString "/bin/a")];
              VNilStructPtr 1])].

(** A configuration for Windows with one mount. *)
Definition windowsSpec : Spec :=
  {| Version := "1.0.0";
     Spec_Platform := {| OS := "windows"; Arch := "amd64" |};
     Spec_Process := {| Cwd := "/"; Env := []; Capabilities := [];
                        Rlimits := []; ApparmorProfile := "" |};
     Hostname := "";
     Mounts := [{| Mount_Type := "ntfs" |}];
     Spec_Hooks := {| Prestart := []; Poststart := []; Poststop := [] |};
     Spec_Linux := {| UIDMappings := []; GIDMappings := []; Sysctl := ∅;
                      Namespaces := []; Devices := [];
                      Linux_Seccomp := None; RootfsPropagation := "" |} |}.

(** [twoSysctl] with an unsupported version and an unknown architecture. *)
Definition wrongTwice : Spec :=
  {| Version := "2.0.0";
     Spec_Platform := {| OS := "linux"; Arch := "sparc" |};
     Spec_Process := Spec_Process twoSysctl;
     Hostname := Hostname twoSysctl;
     Mounts := Mounts twoSysctl;
     Spec_Hooks := Spec_Hooks twoSysctl;
     Spec_Linux := Spec_Linux twoSysctl |}.

(** ** The monad *)

Section Monad.
Context {A B : Type}.

Lemma result_bind (m : M A) (k : A -> M B) :
  result (m ≫= k) =
  match result m with
  | Returns a => result (k a)
  | Exits => Exits
  | Panics => Panics
  end.
Proof.
  destruct m as [l [a| |]]; unfold mbind, M_bind, result; simpl; trivial.
  destruct (k a); reflexivity.
Qed.

Lemma bind_returns (m : M A) (k : A -> M B) (b : B) :
  result (m ≫= k) = Returns b <->
  exists a, result m = Returns a /\ result (k a) = Returns b.
Proof.
  rewrite result_bind. destruct (result m) as [a| |].
  - split; [eauto | intros (a' & [= <-] & ?); trivial].
  - split; [discriminate | intros (? & ? & ?); discriminate].
  - split; [discriminate | intros (? & ? & ?); discriminate].
Qed.

End Monad.

Lemma passes_seq {B : Type} (m : M unit) (k : M B) (b : B) :
  result (m ;; k) = Returns b <-> passes m /\ result k = Returns b.
Proof.
  rewrite bind_returns. unfold passes. split.
  - intros ([] & ? & ?); auto.
  - intros [? ?]; exists tt; auto.
Qed.

Lemma passes_forEach {A : Type} (l : list A) (body : A -> M unit) :
  passes (forEach l body) <-> Forall (fun x => passes (body x)) l.
Proof.
  induction l as [|x l IH]; simpl.
  - split; [constructor | reflexivity].
  - unfold passes at 1. rewrite passes_seq. fold (passes (forEach l body)).
    rewrite IH, Forall_cons. reflexivity.
Qed.

(** A guard [if bad then Fatalf .. else skip] passes exactly when the
    condition is false. *)
Lemma passes_guard (bad : bool) fmt a :
  passes (if bad then Fatalf fmt a else skip) <-> bad = false.
Proof. destruct bad; split; try discriminate; reflexivity. Qed.

(** ** Splitting a string at a byte *)

Lemma strings_Split_nonempty s c : strings_Split s c <> [].
Proof.
  destruct s as [|a s]; simpl; [discriminate|].
  destruct (Ascii.eqb a c); [discriminate|].
  destruct (strings_Split s c); discriminate.
Qed.

Lemma strings_Split_app key value c :
  c ∉ bytes key ->
  strings_Split (key +:+ String c value) c = key :: strings_Split value c.
Proof.
  induction key as [|a key IH]; simpl; intros Hc.
  - rewrite Ascii.eqb_refl. reflexivity.
  - apply not_elem_of_cons in Hc as [Hne Hc].
    destruct (Ascii.eqb_spec a c) as [->|_]; [congruence|].
    rewrite (IH Hc). reflexivity.
Qed.

Lemma strings_Split_none s c : c ∉ bytes s -> strings_Split s c = [s].
Proof.
  induction s as [|a s IH]; simpl; intros Hc; [reflexivity|].
  apply not_elem_of_cons in Hc as [Hne Hc].
  destruct (Ascii.eqb_spec a c) as [->|_]; [congruence|].
  rewrite (IH Hc). reflexivity.
Qed.

(** Either [c] does not occur in [s], or [s] splits at its first [c]. *)
Lemma first_sep s c :
  c ∉ bytes s \/
  exists key value, s = key +:+ String c value /\ c ∉ bytes key.
Proof.
  induction s as [|a s IH]; simpl.
  - left. apply not_elem_of_nil.
  - destruct (Ascii.eqb_spec a c) as [->|Hne].
    + right. exists EmptyString, s. split; [reflexivity | apply not_elem_of_nil].
    + destruct IH as [Hc | (key & value & -> & Hc)].
      * left. apply not_elem_of_cons. split; [congruence | assumption].
      * right. exists (String a key), value. split; [reflexivity|].
        apply not_elem_of_cons. split; [congruence | assumption].
Qed.

(** ** [envValid] *)

Section EnvValid.
Context `{GoLib}.

Lemma envValid_range_result env i rs :
  result (envValid_range env i rs) = Returns (forallb keyRune rs).
Proof.
  revert i. induction rs as [|ch rs IH]; intros i; simpl; [reflexivity|].
  unfold keyRune at 1.
  destruct (unicode_IsDigit ch), (unicode_IsLetter ch), (ch =? 95); simpl;
    try reflexivity;
    rewrite result_bind;
    match goal with
    | |- context [if ?b then Warnf _ _ else skip] => destruct b
    end; simpl; apply IH.
Qed.

Lemma envValid_with_sep key value :
  "="%char ∉ bytes key ->
  result (envValid (key +:+ String "=" value)) =
  Returns (forallb keyRune (TrimSpace_runes key)).
Proof.
  intros Hc. unfold envValid. rewrite (strings_Split_app _ _ _ Hc).
  destruct (strings_Split value "=") as [|p ps] eqn:E.
  - destruct (strings_Split_nonempty _ _ E).
  - simpl. apply envValid_range_result.
Qed.

Lemma envValid_without_sep env :
  "="%char ∉ bytes env -> result (envValid env) = Returns false.
Proof.
  intros Hc. unfold envValid. rewrite (strings_Split_none _ _ Hc). reflexivity.
Qed.

(** Trimming keeps a sublist, so what holds of every rune of a key holds of
    every rune of the trimmed key. *)
Lemma forallb_TrimLeftFunc (f p : rune -> bool) rs :
  forallb p rs = true -> forallb p (TrimLeftFunc f rs) = true.
Proof.
  induction rs as [|r rs IH]; simpl; [trivial|].
  intros [Hr Hrs]%andb_prop. destruct (f r); [auto|].
  simpl. rewrite Hr, Hrs. reflexivity.
Qed.

Lemma forallb_rev (p : rune -> bool) rs : forallb p (rev rs) = forallb p rs.
Proof.
  induction rs as [|r rs IH]; simpl; [reflexivity|].
  rewrite forallb_app, IH. simpl. rewrite andb_true_r, andb_comm. reflexivity.
Qed.

Lemma forallb_TrimSpace (p : rune -> bool) s :
  forallb p (runes s) = true -> forallb p (TrimSpace_runes s) = true.
Proof.
  intros Hp. unfold TrimSpace_runes, TrimRightFunc.
  rewrite forallb_rev. apply forallb_TrimLeftFunc.
  rewrite forallb_rev. apply forallb_TrimLeftFunc, Hp.
Qed.

End EnvValid.

(** ** Environment entries (claims C1 and C10) *)

Lemma envValid_keyValue `{GoLib} (env : string) :
  result (envValid env) = Returns true <-> keyValue env.
Proof.
  split.
  - intros Hr. destruct (first_sep env "=") as [Hc | (key & value & -> & Hc)].
    + rewrite (envValid_without_sep _ Hc) in Hr. discriminate.
    + rewrite (envValid_with_sep _ _ Hc) in Hr. injection Hr as Hr.
      exists key, value. auto.
  - intros (key & value & -> & Hc & Hk).
    rewrite (envValid_with_sep _ _ Hc), Hk. reflexivity.
Qed.

(** The guard around [envValid] in [checkProcess] and [checkEventHooks]. *)
Lemma passes_envValid_guard `{GoLib} env fmt a :
  passes (ok ← envValid env; if negb ok then Fatalf fmt a else skip) <->
  result (envValid env) = Returns true.
Proof.
  unfold passes. rewrite bind_returns. split.
  - intros ([] & Hr & Hg); [assumption | discriminate].
  - intros Hr. exists true. auto.
Qed.

(** C1, counterexample: the entry ["=value"], whose key is empty, is
    accepted by [envValid], and the process check passes on a process that
    carries it. *)
Lemma empty_key_accepted :
  result (@envValid latin1 "=value") = Returns true /\
  passes (@checkProcess latin1 someCaps emptyHost emptyKeyProcess "/rootfs").
Proof. split; vm_compute; reflexivity. Qed.

(** C1, amended: [envValid] accepts an entry exactly when it contains an
    [=] and the text before the first [=], trimmed of white space at both
    ends, consists solely of letters, digits and underscores (the empty key
    included); and when the process check passes, every environment entry of
    the process is of that form. *)
Theorem process_env_grammar `{GoLib} `{PackageMain} :
  (forall env, result (envValid env) = Returns true <-> keyValue env) /\
  (forall host process rootfs,
     passes (checkProcess host process rootfs) ->
     Forall keyValue (Env process)).
Proof.
  split; [apply envValid_keyValue|].
  intros host process rootfs Hp. unfold checkProcess in Hp.
  unfold passes in Hp.
  apply passes_seq in Hp as [_ Hp]. apply passes_seq in Hp as [Hp _].
  apply passes_forEach in Hp. eapply Forall_impl; [exact Hp|].
  intros env He. apply envValid_keyValue.
  apply passes_envValid_guard in He. exact He.
Qed.

(** The process check passes on [plainProcess], so each of its entries is
    of the form above. *)
Lemma process_env_grammar_example :
  passes (@checkProcess latin1 someCaps emptyHost plainProcess "/rootfs") /\
  Forall (@keyValue latin1) (Env plainProcess).
Proof.
  assert (Hp : passes (@checkProcess latin1 someCaps emptyHost plainProcess "/rootfs"))
    by (vm_compute; reflexivity).
  split; [exact Hp|].
  exact (proj2 (@process_env_grammar latin1 someCaps) emptyHost plainProcess
           "/rootfs" Hp).
Defined.

(** C10: when the text before the first [=] is a valid key, the entry is
    accepted whatever follows that [=], further [=] characters included, and
    the guard that the process check and the hooks check put around
    [envValid] lets it pass; in general the verdict on an entry does not
    depend on the text after its first [=]. *)
Theorem envValid_value_unconstrained `{GoLib} (key : string) :
  "="%char ∉ bytes key ->
  (forall value value',
     result (envValid (key +:+ String "=" value)) =
     result (envValid (key +:+ String "=" value'))) /\
  (forallb keyRune (runes key) = true ->
   forall value,
     result (envValid (key +:+ String "=" value)) = Returns true /\
     forall fmt a,
       passes (ok ← envValid (key +:+ String "=" value);
               if negb ok then Fatalf fmt a else skip)).
Proof.
  intros Hc. split.
  - intros value value'. rewrite !(envValid_with_sep _ _ Hc). reflexivity.
  - intros Hk value.
    assert (Hr : result (envValid (key +:+ String "=" value)) = Returns true).
    { rewrite (envValid_with_sep _ _ Hc), (forallb_TrimSpace _ _ Hk).
      reflexivity. }
    split; [exact Hr|]. intros fmt a. apply passes_envValid_guard, Hr.
Qed.

(** The entry [A=B=C]: the key is [A], the value [B=C]. *)
Lemma envValid_A_B_C :
  ("="%char ∉ bytes "A") /\
  result (@envValid latin1 "A=B=C") = Returns true.
Proof.
  assert (Hc : "="%char ∉ bytes "A").
  { intros Hin. apply list_elem_of_In in Hin. simpl in Hin.
    destruct Hin as [Hin|[]]. discriminate Hin. }
  split; [exact Hc|].
  exact (proj1 (proj2 (@envValid_value_unconstrained latin1 "A" Hc) eq_refl "B=C")).
Defined.

(** ** Devices (claim C3) *)

(** C3, counterexample: a device of kind ["p"] with Major = -1 is accepted,
    although its Major is not 0. *)
Lemma negative_pipe_accepted :
  Device_Type negativePipe = "p" /\ deviceValid negativePipe = true /\
  ~ (Major negativePipe = 0 /\ Minor negativePipe = 0).
Proof.
  split; [reflexivity|]. split; [reflexivity|]. intros [Hm _]. discriminate Hm.
Qed.

(** C3, amended: a device is accepted exactly according to its kind: ["b"]
    and ["c"] with any Major and Minor, ["u"] when Major > 0 and Minor > 0,
    ["p"] when neither Major nor Minor is positive (Major <= 0 and
    Minor <= 0); every other kind is rejected. *)
Theorem deviceValid_by_kind (d : Device) :
  deviceValid d = true <->
  Device_Type d = "b" \/ Device_Type d = "c" \/
  (Device_Type d = "u" /\ 0 < Major d /\ 0 < Minor d) \/
  (Device_Type d = "p" /\ Major d <= 0 /\ Minor d <= 0).
Proof.
  unfold deviceValid.
  destruct (String.eqb_spec (Device_Type d) "b") as [Hb|Hb]; [tauto|].
  destruct (String.eqb_spec (Device_Type d) "c") as [Hc|Hc]; [tauto|].
  destruct (String.eqb_spec (Device_Type d) "u") as [Hu|Hu].
  - assert (Hp : Device_Type d <> "p") by (rewrite Hu; discriminate).
    destruct (Z.leb_spec (Major d) 0), (Z.leb_spec (Minor d) 0);
      intuition (try discriminate; try lia).
  - destruct (String.eqb_spec (Device_Type d) "p") as [Hp|Hp].
    + destruct (Z.ltb_spec 0 (Major d)), (Z.ltb_spec 0 (Minor d)); simpl;
        intuition (try discriminate; try lia).
    + intuition discriminate.
Qed.

(** ** The version check (claim C7) *)

(** C7: provided the supported version is itself well-formed, the version
    check stops the run for every version [semver.Parse] rejects and for
    every well-formed version other than the supported one, and it passes
    exactly when the version is the supported one. *)
Theorem checkSemVer_exact `{GoLib} `{SpecsGo} :
  semver_Parse rspec_Version = None ->
  forall version,
    (semver_Parse version <> None -> result (checkSemVer version) = Exits) /\
    (semver_Parse version = None -> version <> rspec_Version ->
     result (checkSemVer version) = Exits) /\
    (passes (checkSemVer version) <-> version = rspec_Version).
Proof.
  intros Hsup version. unfold checkSemVer, passes.
  rewrite result_bind.
  destruct (semver_Parse version) as [err|] eqn:Hparse; simpl.
  - split; [reflexivity|]. split; [discriminate|].
    split; [discriminate|]. intros ->. congruence.
  - split; [congruence|].
    destruct (String.eqb_spec version rspec_Version) as [->|Hne]; simpl.
    + split; [congruence|]. split; reflexivity.
    + split; [reflexivity|]. split; [discriminate | congruence].
Qed.

(** The examples of the spec: [1.0.0] passes, [not-a-version] and [9.9.9] do
    not. *)
Lemma checkSemVer_examples :
  @semver_Parse latin1 (@rspec_Version specs_go) = None /\
  passes (@checkSemVer latin1 specs_go "1.0.0") /\
  result (@checkSemVer latin1 specs_go "not-a-version") = Exits /\
  result (@checkSemVer latin1 specs_go "9.9.9") = Exits.
Proof.
  assert (Hsup : @semver_Parse latin1 (@rspec_Version specs_go) = None)
    by reflexivity.
  split; [exact Hsup|].
  split.
  { apply (proj2 (proj2 (@checkSemVer_exact latin1 specs_go Hsup "1.0.0"))).
    reflexivity. }
  split.
  - apply (proj1 (@checkSemVer_exact latin1 specs_go Hsup "not-a-version")).
    vm_compute. discriminate.
  - apply (proj1 (proj2 (@checkSemVer_exact latin1 specs_go Hsup "9.9.9")));
      [reflexivity | vm_compute; discriminate].
Defined.

(** ** Namespaces and their dependants (claims C9 and C4) *)

Lemma existsb_Permutation {A : Type} (f : A -> bool) (l l' : list A) :
  l ≡ₚ l' -> existsb f l = existsb f l'.
Proof.
  induction 1 as [|x l l' _ IH|x y l|l l' l'' _ IH1 _ IH2]; simpl.
  - reflexivity.
  - rewrite IH. reflexivity.
  - destruct (f x), (f y); reflexivity.
  - congruence.
Qed.

Lemma forallb_Permutation {A : Type} (f : A -> bool) (l l' : list A) :
  l ≡ₚ l' -> forallb f l = forallb f l'.
Proof.
  induction 1 as [|x l l' _ IH|x y l|l l' l'' _ IH1 _ IH2]; simpl.
  - reflexivity.
  - rewrite IH. reflexivity.
  - destruct (f x), (f y); reflexivity.
  - congruence.
Qed.

Lemma len_zero (s : string) : (len s =? 0) = true <-> s = "".
Proof.
  unfold len. destruct s; simpl; split; try reflexivity; discriminate.
Qed.

Section Namespaces.
Context `{SpecsGo}.

Lemma four_kinds_distinct :
  UTSNamespace <> IPCNamespace /\ UTSNamespace <> NetworkNamespace /\
  UTSNamespace <> MountNamespace /\ IPCNamespace <> NetworkNamespace /\
  IPCNamespace <> MountNamespace /\ NetworkNamespace <> MountNamespace.
Proof.
  pose proof namespaces_distinct as Hd.
  repeat match goal with
         | Hn : NoDup (_ :: _) |- _ => apply NoDup_cons in Hn as [? ?]
         end.
  repeat match goal with
         | Hn : _ ∉ _ :: _ |- _ => apply not_elem_of_cons in Hn as [? ?]
         end.
  repeat split; congruence.
Qed.

Lemma checkNamespace_result ns c :
  result (checkNamespace ns c) =
  if namespaceValid ns then Returns (track c [ns]) else Exits.
Proof.
  destruct four_kinds_distinct as (H1 & H2 & H3 & H4 & H5 & H6).
  unfold checkNamespace, track, newly. simpl.
  destruct (namespaceValid ns); simpl; [|reflexivity].
  destruct c as [u i m n]; simpl.
  destruct (len (Namespace_Path ns) =? 0); simpl.
  2:{ rewrite !andb_false_r, !orb_false_r. reflexivity. }
  rewrite !andb_true_r, !orb_false_r.
  destruct (String.eqb_spec (Namespace_Type ns) UTSNamespace) as [E|_].
  { rewrite E. rewrite (proj2 (String.eqb_neq _ _) H1),
      (proj2 (String.eqb_neq _ _) H2), (proj2 (String.eqb_neq _ _) H3).
    simpl. rewrite !orb_false_r, orb_true_r. reflexivity. }
  destruct (String.eqb_spec (Namespace_Type ns) IPCNamespace) as [E|_].
  { rewrite E. rewrite (proj2 (String.eqb_neq _ _) H4),
      (proj2 (String.eqb_neq _ _) H5).
    simpl. rewrite !orb_false_r, orb_true_r. reflexivity. }
  destruct (String.eqb_spec (Namespace_Type ns) NetworkNamespace) as [E|_].
  { rewrite E. rewrite (proj2 (String.eqb_neq _ _) H6).
    simpl. rewrite !orb_false_r, orb_true_r. reflexivity. }
  destruct (String.eqb (Namespace_Type ns) MountNamespace); simpl;
    rewrite ?orb_false_r, ?orb_true_r; reflexivity.
Qed.

Lemma track_cons c ns nss : track (track c [ns]) nss = track c (ns :: nss).
Proof.
  unfold track. simpl. rewrite !orb_false_r, !orb_assoc. reflexivity.
Qed.

Lemma checkNamespaces_result nss c :
  result (checkNamespaces nss c) =
  if forallb namespaceValid nss then Returns (track c nss) else Exits.
Proof.
  revert c. induction nss as [|ns nss IH]; intros c; simpl.
  - unfold track. simpl. rewrite !orb_false_r. destruct c; reflexivity.
  - rewrite result_bind, checkNamespace_result.
    destruct (namespaceValid ns); simpl; [|reflexivity].
    rewrite IH, track_cons. reflexivity.
Qed.

Lemma existsb_newly nss t :
  existsb (newly t) nss = true <-> declaredNew nss t.
Proof.
  unfold declaredNew. rewrite existsb_exists. split.
  - intros (ns & Hin & [Ht Hp]%andb_prop). exists ns.
    apply list_elem_of_In in Hin. apply String.eqb_eq in Ht.
    apply len_zero in Hp. auto.
  - intros (ns & Hin & Ht & Hp). exists ns. split.
    + apply list_elem_of_In, Hin.
    + unfold newly. rewrite Ht, Hp, String.eqb_refl. reflexivity.
Qed.

End Namespaces.

(** C9: when every entry of the namespace sequence is of a known kind, the
    loop ends with four flags, and the flag of each of UTS, IPC, Mount and
    Network is set exactly when some entry of that kind has an empty path,
    whatever the other entries are; and the outcome of the loop is the same
    for any reordering of the entries. *)
Theorem created_is_disjunction `{SpecsGo} :
  (forall nss,
     Forall (fun ns => namespaceValid ns = true) nss ->
     exists c,
       result (checkNamespaces nss noneCreated) = Returns c /\
       (utsExists c = true <-> declaredNew nss UTSNamespace) /\
       (ipcExists c = true <-> declaredNew nss IPCNamespace) /\
       (mountExists c = true <-> declaredNew nss MountNamespace) /\
       (netExists c = true <-> declaredNew nss NetworkNamespace)) /\
  (forall nss nss',
     nss ≡ₚ nss' ->
     result (checkNamespaces nss noneCreated) =
     result (checkNamespaces nss' noneCreated)).
Proof.
  split.
  - intros nss Hv. exists (track noneCreated nss). split.
    + rewrite checkNamespaces_result.
      rewrite (proj2 (forallb_forall _ _)); [reflexivity|].
      intros ns Hin. apply list_elem_of_In in Hin.
      exact (proj1 (list.Forall_forall _ _) Hv ns Hin).
    + simpl. rewrite <- !existsb_newly. tauto.
  - intros nss nss' Hp. rewrite !checkNamespaces_result.
    rewrite (forallb_Permutation _ _ _ Hp). unfold track.
    rewrite !(existsb_Permutation _ _ _ Hp). reflexivity.
Qed.

(** Of two UTS entries one is created anew: the UTS flag is set; the only
    Network entry is joined: the Network flag is not. *)
Lemma created_twoUTS :
  Forall (fun ns => @namespaceValid specs_go ns = true) twoUTS /\
  exists c,
    result (@checkNamespaces specs_go twoUTS noneCreated) = Returns c /\
    utsExists c = true /\ netExists c = false.
Proof.
  assert (Hv : Forall (fun ns => @namespaceValid specs_go ns = true) twoUTS)
    by (repeat constructor).
  split; [exact Hv|].
  destruct (proj1 (@created_is_disjunction specs_go) twoUTS Hv)
    as (c & Hr & _).
  exists c. split; [exact Hr|].
  vm_compute in Hr. injection Hr as <-. split; reflexivity.
Defined.

Section LinuxCheck.
Context `{SpecsGo} `{GoRuntime}.

(** A [range] over a map visits exactly its keys. *)
Lemma range_keys {V : Type} (m : gmap string V) (k : string) :
  k ∈ (map_range m).*1 <-> is_Some (m !! k).
Proof.
  rewrite (fmap_Permutation fst _ _ (map_range_perm V m)).
  rewrite list_elem_of_fmap. split.
  - intros ([k' v] & -> & Hin). apply elem_of_map_to_list in Hin. eauto.
  - intros [v Hv]. exists (k, v). split; [reflexivity|].
    apply elem_of_map_to_list, Hv.
Qed.

Lemma passes_checkSysctl c k :
  passes (checkSysctl c k) <->
  (strings_HasPrefix k "net." = true -> netExists c = true) /\
  (strings_HasPrefix k "fs.mqueue." = true ->
   mountExists c = true /\ ipcExists c = true).
Proof.
  unfold checkSysctl, passes. rewrite passes_seq.
  fold (passes (if strings_HasPrefix k "net." && negb (netExists c)
                then Fatalf "Sysctl %v requires a new Network namespace to be specified as well" [AString k]
                else skip)).
  rewrite passes_guard.
  destruct (strings_HasPrefix k "net."), (strings_HasPrefix k "fs.mqueue."),
    (netExists c), (mountExists c), (ipcExists c); simpl;
    intuition (try discriminate; try reflexivity).
Qed.

(** What a run of [checkLinux] to its end says about the namespaces: every
    entry is of a known kind, and the three dependencies hold of the flags
    the loop computed. *)
Lemma checkLinux_passes_inv spec :
  passes (checkLinux spec) ->
  let c := track noneCreated (Namespaces (Spec_Linux spec)) in
  Forall (fun k => passes (checkSysctl c k))
         (map_range (Sysctl (Spec_Linux spec))).*1 /\
  (String.eqb (OS (Spec_Platform spec)) "linux" && negb (utsExists c)
   && negb (String.eqb (Hostname spec) "") = false).
Proof.
  intros Hp. unfold checkLinux, passes in Hp.
  apply passes_seq in Hp as [_ Hp]. apply passes_seq in Hp as [_ Hp].
  apply bind_returns in Hp as (c & Hc & Hp).
  rewrite checkNamespaces_result in Hc.
  destruct (forallb namespaceValid (Namespaces (Spec_Linux spec)));
    [|discriminate].
  injection Hc as <-.
  apply passes_seq in Hp as [Hs Hp]. apply passes_seq in Hp as [Hh _].
  apply passes_forEach in Hs. apply passes_guard in Hh.
  split; assumption.
Qed.

End LinuxCheck.

(** C4: when the Linux check passes, every sysctl key that starts with
    ["net."] comes with a Network namespace entry of empty path, every
    sysctl key that starts with ["fs.mqueue."] comes with both a Mount and
    an IPC namespace entry of empty path, and a non-empty hostname on the OS
    ["linux"] comes with a UTS namespace entry of empty path. *)
Theorem checkLinux_dependencies `{SpecsGo} `{GoRuntime} (spec : Spec) :
  passes (checkLinux spec) ->
  let linux := Spec_Linux spec in
  (forall k, is_Some (Sysctl linux !! k) ->
     strings_HasPrefix k "net." = true ->
     declaredNew (Namespaces linux) NetworkNamespace) /\
  (forall k, is_Some (Sysctl linux !! k) ->
     strings_HasPrefix k "fs.mqueue." = true ->
     declaredNew (Namespaces linux) MountNamespace /\
     declaredNew (Namespaces linux) IPCNamespace) /\
  (Hostname spec <> "" -> OS (Spec_Platform spec) = "linux" ->
   declaredNew (Namespaces linux) UTSNamespace).
Proof.
  intros Hp linux. destruct (checkLinux_passes_inv spec Hp) as [Hs Hh].
  fold linux in Hs, Hh.
  assert (Hk : forall k, is_Some (Sysctl linux !! k) ->
                 passes (checkSysctl (track noneCreated (Namespaces linux)) k)).
  { intros k Hin. apply range_keys in Hin.
    exact (proj1 (list.Forall_forall _ _) Hs k Hin). }
  split; [|split].
  - intros k Hin Hpre. apply Hk, passes_checkSysctl in Hin as [Hn _].
    apply existsb_newly. exact (Hn Hpre).
  - intros k Hin Hpre. apply Hk, passes_checkSysctl in Hin as [_ Hm].
    destruct (Hm Hpre) as [Hmount Hipc].
    split; apply existsb_newly; assumption.
  - intros Hhost Hos. apply existsb_newly.
    rewrite Hos in Hh. simpl in Hh.
    destruct (String.eqb_spec (Hostname spec) ""); [contradiction|].
    simpl in Hh. rewrite andb_true_r in Hh.
    apply negb_false_iff in Hh. exact Hh.
Qed.

(** The example of the spec: [net.ipv4.ip_forward] passes with a Network
    namespace of empty path and stops the run without one. *)
Lemma checkLinux_forwarding :
  passes (@checkLinux specs_go forwards (forwardingSpec [newNetwork])) /\
  @declaredNew [newNetwork] (@NetworkNamespace specs_go) /\
  result (@checkLinux specs_go forwards (forwardingSpec [])) = Exits.
Proof.
  assert (Hp : passes (@checkLinux specs_go forwards (forwardingSpec [newNetwork])))
    by (vm_compute; reflexivity).
  split; [exact Hp|]. split; [|vm_compute; reflexivity].
  apply (proj1 (@checkLinux_dependencies specs_go forwards _ Hp)
           "net.ipv4.ip_forward"); [|reflexivity].
  exists "1". vm_compute. reflexivity.
Defined.

(** ** Mounts (claim C6) *)

(** A loop of guards stops at the first element the guard rejects. *)
Lemma forEach_guard_result {A : Type} (bad : A -> bool)
    (fmt : A -> string) (a : A -> list arg) (l : list A) :
  result (forEach l (fun x => if bad x then Fatalf (fmt x) (a x) else skip)) =
  if existsb bad l then Exits else Returns tt.
Proof.
  induction l as [|x l IH]; simpl; [reflexivity|].
  rewrite result_bind. destruct (bad x); simpl; [reflexivity | exact IH].
Qed.

Lemma index_insert (m : gmap string bool) (k t : string) :
  index (<[k := true]> m) t = true <-> t = k \/ index m t = true.
Proof.
  unfold index. destruct (decide (k = t)) as [->|Hne].
  - rewrite lookup_insert_eq. simpl. tauto.
  - rewrite lookup_insert_ne by exact Hne. split; [tauto|].
    intros [->|Hm]; [contradiction | exact Hm].
Qed.

Lemma index_empty (t : string) : index ∅ t = false.
Proof. unfold index. rewrite lookup_empty. reflexivity. Qed.

Lemma scanFilesystems_clean scanned (m : gmap string bool) :
  Forall (fun line => line.2 = None) scanned ->
  exists m',
    scanFilesystems scanned m = (m', None) /\
    forall t, index m' t = true <->
              index m t = true \/ t ∈ map filesystemType scanned.*1.
Proof.
  intros Hclean. revert m.
  induction Hclean as [|[text err] scanned Herr _ IH]; intros m; simpl.
  - exists m. split; [reflexivity|]. intros t. rewrite elem_of_nil. tauto.
  - simpl in Herr. subst err.
    fold (filesystemType text).
    assert (Hsame :
      (if (1 <? length (strings_Split text "009"))%nat
       then <[nth 1 (strings_Split text "009") EmptyString := true]> m
       else <[nth 0 (strings_Split text "009") EmptyString := true]> m)
      = <[filesystemType text := true]> m).
    { unfold filesystemType.
      destruct (1 <? length (strings_Split text "009"))%nat; reflexivity. }
    rewrite Hsame.
    destruct (IH (<[filesystemType text := true]> m)) as (m' & Hscan & Hm').
    exists m'. split; [exact Hscan|].
    intros t. rewrite Hm', index_insert, elem_of_cons. tauto.
Qed.

Section Mounts.
Context (host : Host) (spec : Spec) (hostCheck : bool).

Lemma checkMounts_derived (types : gmap string bool) :
  result (supportedMountTypes host (OS (Spec_Platform spec)) hostCheck)
    = Returns (Some types, None) ->
  result (checkMounts host spec hostCheck) =
  if existsb (fun mount => negb (index types (Mount_Type mount))) (Mounts spec)
  then Exits else Returns tt.
Proof.
  intros Hs. unfold checkMounts. rewrite result_bind, Hs.
  cbn [fst snd]. rewrite result_bind. cbn [result skip mret M_ret snd].
  apply (forEach_guard_result
           (fun mount => negb (index types (Mount_Type mount)))
           (fun _ => "Unsupported mount type %q")
           (fun mount => [AString (Mount_Type mount)])).
Qed.

Lemma checkMounts_skipped :
  result (supportedMountTypes host (OS (Spec_Platform spec)) hostCheck)
    = Returns (None, None) ->
  passes (checkMounts host spec hostCheck).
Proof.
  intros Hs. unfold checkMounts, passes. rewrite result_bind, Hs. reflexivity.
Qed.

End Mounts.

(** C6: for an OS other than ["linux"] and ["windows"] no set of mount types
    is derived and the mounts check passes; for ["windows"] the set is the
    single entry ["ntfs"]; for ["linux"] with host inspection, once
    [/proc/filesystems] has been read, the set holds exactly the filesystem
    types its lines register and ["bind"]; for ["linux"] without host
    inspection no set is derived and the check passes.  Whenever a set is
    derived, the check passes exactly when every mount type is a member, and
    stops the run exactly when some mount type is not. *)
Theorem mount_types_derivation (host : Host) (spec : Spec) (hostCheck : bool) :
  let os := OS (Spec_Platform spec) in
  let derived := result (supportedMountTypes host os hostCheck) in
  (os <> "linux" -> os <> "windows" ->
   derived = Returns (None, None) /\ passes (checkMounts host spec hostCheck)) /\
  (os = "windows" -> derived = Returns (Some {[ "ntfs" := true ]}, None)) /\
  (os = "linux" -> hostCheck = true ->
   forall scanned,
     proc_filesystems host = inl scanned ->
     Forall (fun line => line.2 = None) scanned ->
     exists types,
       derived = Returns (Some types, None) /\
       forall t, index types t = true <->
                 t = "bind" \/ t ∈ map filesystemType scanned.*1) /\
  (os = "linux" -> hostCheck = false ->
   derived = Returns (None, None) /\ passes (checkMounts host spec hostCheck)) /\
  (forall types,
     derived = Returns (Some types, None) ->
     (passes (checkMounts host spec hostCheck) <->
      Forall (fun mount => index types (Mount_Type mount) = true) (Mounts spec)) /\
     (result (checkMounts host spec hostCheck) = Exits <->
      Exists (fun mount => index types (Mount_Type mount) = false) (Mounts spec))).
Proof.
  intros os derived. subst derived.
  split; [|split; [|split; [|split]]].
  - intros Hl Hw.
    assert (Hd : result (supportedMountTypes host os hostCheck) = Returns (None, None)).
    { unfold supportedMountTypes.
      rewrite (proj2 (String.eqb_neq _ _) Hl), (proj2 (String.eqb_neq _ _) Hw).
      reflexivity. }
    split; [exact Hd | apply checkMounts_skipped, Hd].
  - intros Hw. unfold supportedMountTypes. rewrite Hw. reflexivity.
  - intros Hl Hh scanned Hopen Hclean.
    unfold supportedMountTypes. rewrite Hl, Hh, Hopen. simpl.
    destruct (scanFilesystems_clean scanned ∅ Hclean) as (m' & Hscan & Hm').
    rewrite Hscan. exists (<["bind" := true]> m'). split; [reflexivity|].
    intros t. rewrite index_insert, Hm', index_empty.
    intuition discriminate.
  - intros Hl Hh.
    assert (Hd : result (supportedMountTypes host os hostCheck) = Returns (None, None)).
    { unfold supportedMountTypes. rewrite Hl, Hh. reflexivity. }
    split; [exact Hd | apply checkMounts_skipped, Hd].
  - intros types Hd. unfold passes.
    rewrite (checkMounts_derived host spec hostCheck types Hd).
    destruct (existsb _ (Mounts spec)) eqn:He.
    + apply existsb_exists in He as (mount & Hin & Hbad).
      apply negb_true_iff in Hbad. apply list_elem_of_In in Hin. split.
      * split; [discriminate|]. intros Hall.
        pose proof (proj1 (list.Forall_forall _ _) Hall mount Hin) as Hgood.
        simpl in Hgood. congruence.
      * split; [intros _ | reflexivity].
        apply list.Exists_exists. exists mount. auto.
    + split.
      * split; [intros _ | reflexivity].
        apply list.Forall_forall. intros mount Hin.
        apply list_elem_of_In in Hin.
        destruct (index types (Mount_Type mount)) eqn:Hi; [reflexivity|].
        assert (Ht : existsb (fun mount => negb (index types (Mount_Type mount)))
                       (Mounts spec) = true).
        { apply existsb_exists. exists mount. rewrite Hi. auto. }
        congruence.
      * split; [discriminate|].
        intros (mount & Hin & Hbad)%list.Exists_exists.
        assert (Ht : existsb (fun mount => negb (index types (Mount_Type mount)))
                       (Mounts spec) = true).
        { apply existsb_exists. exists mount. rewrite Hbad.
          split; [apply list_elem_of_In, Hin | reflexivity]. }
        congruence.
Qed.

(** On [someHost] the set is [proc], [ext4] and [bind], and the three mounts
    pass. *)
Lemma mount_types_on_someHost :
  result (supportedMountTypes someHost "linux" true)
    = Returns (Some someHostTypes, None) /\
  passes (checkMounts someHost threeMounts true).
Proof.
  assert (Hd : result (supportedMountTypes someHost "linux" true)
               = Returns (Some someHostTypes, None))
    by reflexivity.
  split; [exact Hd|].
  apply (proj1 (proj2 (proj2 (proj2 (proj2
           (mount_types_derivation someHost threeMounts true))))
           someHostTypes Hd)).
  repeat constructor.
Defined.

(** ** The presence checker (claims C2 and C5) *)

Lemma reports_none : reports (Some ([], true)) [].
Proof.
  exists [], true. split; [reflexivity|]. split; [constructor|].
  split; [discriminate | congruence].
Qed.

Lemma reports_one msg violated :
  names msg violated -> reports (Some ([msg], false)) [violated].
Proof.
  intros Hn. exists [msg], false. split; [reflexivity|].
  split; [constructor; [exact Hn | constructor]|].
  split; [discriminate | reflexivity].
Qed.

Lemma reports_collect step rest vs1 vs2 :
  reports step vs1 -> reports rest vs2 ->
  reports (collect step rest) (vs1 ++ vs2).
Proof.
  intros (ms & ok & -> & Hms & Hok) (msgs & valid & -> & Hmsgs & Hvalid).
  simpl. destruct ok.
  - assert (vs1 = []) as ->.
    { destruct vs1; [reflexivity|]. destruct Hok as [_ Hok].
      discriminate Hok. discriminate. }
    simpl. exists msgs, valid. auto.
  - exists (ms ++ msgs), false. split; [reflexivity|].
    split; [apply Forall2_app; assumption|].
    split; [intros _ | reflexivity].
    destruct vs1; [|discriminate]. destruct Hok as [Hok _].
    exfalso. apply Hok; reflexivity.
Qed.

Section Walk.
Variable rec : value -> option (list string * bool).
Variable recv : value -> list (string * string).

Lemma checkElems_reports elems :
  Forall (fun e => reflectable e = true -> reports (rec e) (recv e)) elems ->
  forallb reflectable elems = true ->
  reports (checkElems rec true elems) (flat_map recv elems).
Proof.
  induction 1 as [|e elems He _ IH]; simpl; intros Hr.
  - apply reports_none.
  - apply andb_prop in Hr as [Hre Hr].
    apply reports_collect; auto.
Qed.

Lemma checkElems_skipped elems : reports (checkElems rec false elems) [].
Proof.
  induction elems as [|e elems IH]; simpl; [apply reports_none|].
  apply (reports_collect _ _ [] [] reports_none IH).
Qed.

End Walk.

Lemma len_zero_eqb (s : string) : (len s =? 0) = String.eqb s "".
Proof. destruct s; reflexivity. Qed.

Lemma names_plain parent name : names (shouldNotBeEmpty parent name) (parent, name).
Proof. left. reflexivity. Qed.

Lemma names_dot parent name : names (shouldNotBeEmpty_dot parent name) (parent, name).
Proof. right. reflexivity. Qed.

Lemma walked_elems elems :
  Forall walked elems ->
  Forall (fun e => reflectable e = true ->
                   reports (checkMandatory e) (violations e)) elems.
Proof.
  intros Hall. eapply Forall_impl; [exact Hall|]. intros e [He _]. exact He.
Qed.

Lemma checkFields_reports tname fields :
  Forall (fun fv => walked fv.2) fields ->
  forallb (fun fv => walkable reflectable fv.2) fields = true ->
  reports (checkFields checkMandatory tname fields)
    (flat_map (fun fv => fieldViolations violations tname fv.1 fv.2) fields).
Proof.
  induction 1 as [|[tagField field] fields [_ Hf] _ IH]; simpl; intros Hr.
  - apply reports_none.
  - apply andb_prop in Hr as [Hw Hr]. apply reports_collect; auto.
Qed.

Lemma checkField_struct tname tagField field :
  isStruct field = true \/ (isStructPtr field = true /\ IsNil field = false) ->
  absent field = false ->
  (reflectable field = true -> reports (checkMandatory field) (violations field)) ->
  (exported tagField = true ->
   fieldViolations violations tname tagField field = violations field) ->
  walkable reflectable field = reflectable field ->
  walkable reflectable field = true ->
  reports (checkField checkMandatory tname tagField field)
          (fieldViolations violations tname tagField field).
Proof.
  intros Hkind Habs Hobj Hviol Hsame Hw.
  unfold checkField.
  assert (Hfirst : isStructPtr field && IsNil field = false).
  { destruct Hkind as [Hs | [_ ->]]; [|apply andb_false_r].
    destruct field; try discriminate Hs; reflexivity. }
  assert (Hsecond : isStruct field || isStructPtr field = true).
  { destruct Hkind as [-> | [-> _]]; [reflexivity | apply orb_true_r]. }
  rewrite Hfirst, Hsecond. simpl.
  destruct (exported tagField) eqn:He.
  - rewrite (Hviol eq_refl). apply Hobj. rewrite <- Hsame. exact Hw.
  - assert (Hnone : fieldViolations violations tname tagField field = []).
    { unfold fieldViolations. rewrite Habs, andb_false_r, He. reflexivity. }
    rewrite Hnone.
    destruct field; try discriminate Habs;
      try (destruct Hkind as [Hs | [Hs _]]; discriminate Hs);
      simpl; rewrite ?andb_false_r; apply reports_none.
Qed.

Lemma checkField_elems tname tagField elems field :
  field = VSlice elems \/ field = VMap elems ->
  Forall walked elems ->
  forallb reflectable elems = true ->
  reports (checkField checkMandatory tname tagField field)
          (fieldViolations violations tname tagField field).
Proof.
  intros Hkind Hall Hr.
  assert (Hgoal :
    reports
      (if negb (omitempty tagField) && Nat.eqb (length elems) 0
       then Some ([shouldNotBeEmpty_dot tname (Name tagField)], false)
       else checkElems checkMandatory (exported tagField) elems)
      (if negb (omitempty tagField) && match elems with [] => true | _ => false end
       then [(tname, Name tagField)]
       else if exported tagField then flat_map violations elems else [])).
  { assert (Hwalk :
      reports (checkElems checkMandatory (exported tagField) elems)
              (if exported tagField then flat_map violations elems else [])).
    { destruct (exported tagField); [|apply checkElems_skipped].
      apply (checkElems_reports _ _ _ (walked_elems _ Hall) Hr). }
    destruct (negb (omitempty tagField)); cbn [andb]; [|exact Hwalk].
    destruct elems as [|e elems']; [|exact Hwalk].
    apply reports_one, names_dot. }
  destruct Hkind as [-> | ->]; exact Hgoal.
Qed.

Lemma checkMandatory_walked (v : value) : walked v.
Proof.
  induction v as [tname fields IH|tname fields IH|n|b|s|elems IH|vals IH|]
    using value_induction.
  - assert (Hobj : reflectable (VStruct tname fields) = true ->
             reports (checkMandatory (VStruct tname fields))
                     (violations (VStruct tname fields))).
    { simpl. apply (checkFields_reports tname fields IH). }
    split; [exact Hobj|]. intros tn tf Hw.
    apply checkField_struct; auto.
    intros He. unfold fieldViolations. rewrite He, andb_false_r. reflexivity.
  - assert (Hobj : reflectable (VStructPtr tname fields) = true ->
             reports (checkMandatory (VStructPtr tname fields))
                     (violations (VStructPtr tname fields))).
    { simpl. apply (checkFields_reports tname fields IH). }
    split; [exact Hobj|]. intros tn tf Hw.
    apply checkField_struct; auto.
    intros He. unfold fieldViolations. rewrite He, andb_false_r. reflexivity.
  - split.
    + destruct n; [intros _; apply reports_none | discriminate].
    + intros tn tf _. unfold checkField, fieldViolations. simpl.
      rewrite andb_true_r.
      destruct (negb (omitempty tf)); simpl.
      * apply reports_one, names_plain.
      * destruct (exported tf); apply reports_none.
  - split; [intros _; apply reports_none|].
    intros tn tf _. unfold checkField, fieldViolations. simpl.
    destruct (negb (omitempty tf)), b; simpl;
      try (apply reports_one, names_dot);
      destruct (exported tf); apply reports_none.
  - split; [intros _; apply reports_none|].
    intros tn tf _. unfold checkField, fieldViolations. simpl.
    rewrite len_zero_eqb.
    destruct (negb (omitempty tf)), (String.eqb s ""); simpl;
      try (apply reports_one, names_dot);
      destruct (exported tf); apply reports_none.
  - split; [intros _; apply reports_none|].
    intros tn tf Hw. apply (checkField_elems tn tf elems); auto.
  - split; [intros _; apply reports_none|].
    intros tn tf Hw. apply (checkField_elems tn tf vals); auto.
  - split; [intros _; apply reports_none|].
    intros tn tf _. unfold checkField, fieldViolations. simpl.
    rewrite andb_false_r. destruct (exported tf); apply reports_none.
Qed.

Lemma violations_fieldsOf v tname fields :
  fieldsOf v = Some (tname, fields) ->
  violations v =
  flat_map (fun fv => fieldViolations violations tname fv.1 fv.2) fields.
Proof. destruct v; simpl; intros [= <- <-]; reflexivity. Qed.

Lemma Violated_listed v violated :
  Violated v violated -> violated ∈ violations v.
Proof.
  induction 1 as [v tname fields tagField field Hv Hin Homit Habs
                 |v tname fields tagField field y violated Hv Hin Hexp Hy _ IH];
    rewrite (violations_fieldsOf _ _ _ Hv);
    apply list_elem_of_In, in_flat_map; exists (tagField, field);
    (split; [apply list_elem_of_In, Hin|]); simpl; unfold fieldViolations.
  - rewrite Homit, Habs. simpl. left. reflexivity.
  - assert (Habs : absent field = false).
    { destruct Hy as [| |elems e He|vals e He]; try reflexivity;
        simpl; [destruct elems | destruct vals]; try reflexivity;
        apply elem_of_nil in He; destruct He. }
    rewrite Habs, andb_false_r, Hexp. apply list_elem_of_In.
    destruct Hy as [| |elems e He|vals e He]; try exact IH;
      apply list_elem_of_In, in_flat_map; exists e;
      (split; [apply list_elem_of_In, He | apply list_elem_of_In, IH]).
Qed.

Lemma listed_Violated v violated :
  violated ∈ violations v -> Violated v violated.
Proof.
  revert violated.
  assert (Hfields : forall w tname fields,
    fieldsOf w = Some (tname, fields) ->
    Forall (fun fv => forall violated,
              violated ∈ violations fv.2 -> Violated fv.2 violated) fields ->
    Forall (fun fv => match fv.2 with
                      | VSlice elems | VMap elems =>
                          Forall (fun e => forall violated,
                            violated ∈ violations e -> Violated e violated) elems
                      | _ => True
                      end) fields ->
    forall violated, violated ∈ violations w -> Violated w violated).
  { intros w tname fields Hv IH IHe violated Hin.
    rewrite (violations_fieldsOf _ _ _ Hv) in Hin.
    apply list_elem_of_In, in_flat_map in Hin as ([tagField field] & Hf & Hin).
    apply list_elem_of_In in Hf. simpl in Hin. unfold fieldViolations in Hin.
    pose proof (proj1 (list.Forall_forall _ _) IH _ Hf) as IHf.
    pose proof (proj1 (list.Forall_forall _ _) IHe _ Hf) as IHelems.
    simpl in IHf, IHelems.
    destruct (negb (omitempty tagField) && absent field) eqn:Hreq.
    - apply andb_prop in Hreq as [Homit Habs].
      apply negb_true_iff in Homit.
      destruct Hin as [<-|[]].
      eapply Violated_here; eassumption.
    - destruct (exported tagField) eqn:Hexp; [|destruct Hin].
      destruct field as [tn fs|tn fs|n|b|s|elems|vals|]; try destruct Hin.
      + eapply Violated_below; try eassumption; [constructor|].
        apply IHf, list_elem_of_In, Hin.
      + eapply Violated_below; try eassumption; [constructor|].
        apply IHf, list_elem_of_In, Hin.
      + apply in_flat_map in Hin as (e & He & Hin).
        apply list_elem_of_In in He.
        eapply Violated_below; try eassumption; [constructor; exact He|].
        exact (proj1 (list.Forall_forall _ _) IHelems e He _
                 (proj2 (list_elem_of_In _ _) Hin)).
      + apply in_flat_map in Hin as (e & He & Hin).
        apply list_elem_of_In in He.
        eapply Violated_below; try eassumption; [constructor; exact He|].
        exact (proj1 (list.Forall_forall _ _) IHelems e He _
                 (proj2 (list_elem_of_In _ _) Hin)). }
  assert (Hboth : (forall violated, violated ∈ violations v -> Violated v violated) /\
                  match v with
                  | VSlice elems | VMap elems =>
                      Forall (fun e => forall violated,
                        violated ∈ violations e -> Violated e violated) elems
                  | _ => True
                  end).
  { induction v as [tname fields IH|tname fields IH|n|b|s|elems IH|vals IH|]
      using value_induction;
      try (split; [intros violated Hin; apply elem_of_nil in Hin; destruct Hin
                  | trivial]).
    - split; [|trivial].
      apply (Hfields (VStruct tname fields) tname fields eq_refl);
        (eapply Forall_impl; [exact IH|]); intros fv [H1 H2]; assumption.
    - split; [|trivial].
      apply (Hfields (VStructPtr tname fields) tname fields eq_refl);
        (eapply Forall_impl; [exact IH|]); intros fv [H1 H2]; assumption.
    - eapply Forall_impl; [exact IH|]. intros e [H1 _]. exact H1.
    - eapply Forall_impl; [exact IH|]. intros e [H1 _]. exact H1. }
  exact (proj1 Hboth).
Qed.




(** ** Two runs of the validation (claim C8) *)

Lemma checkPlatform_range_found platform entries archs :
  NoDup entries.*1 -> (OS platform, archs) ∈ entries ->
  checkPlatform_range platform entries = platformVerdict platform (Some archs).
Proof.
  induction entries as [|[os a] entries IH]; simpl; intros Hnd Hin.
  - apply elem_of_nil in Hin. destruct Hin.
  - apply NoDup_cons in Hnd as [Hfresh Hnd].
    destruct (String.eqb_spec os (OS platform)) as [->|Hne].
    + apply elem_of_cons in Hin as [[= ->]|Hin]; [reflexivity|].
      exfalso. apply Hfresh.
      apply list_elem_of_fmap. exists (OS platform, archs). auto.
    + apply elem_of_cons in Hin as [[= Heq _]|Hin]; [congruence|].
      apply IH; assumption.
Qed.

Lemma checkPlatform_range_missing platform (entries : list (string * list string)) :
  OS platform ∉ entries.*1 ->
  checkPlatform_range platform entries = platformVerdict platform None.
Proof.
  induction entries as [|[os a] entries IH]; simpl; intros Hout; [reflexivity|].
  apply not_elem_of_cons in Hout as [Hne Hout].
  destruct (String.eqb_spec os (OS platform)) as [->|_]; [congruence|].
  apply IH, Hout.
Qed.

(** The Go runtime has no say in the platform check: the keys of a map are
    distinct. *)
Lemma checkPlatform_lookup `{GoRuntime} platform :
  checkPlatform platform = platformVerdict platform (validCombins !! OS platform).
Proof.
  unfold checkPlatform.
  pose proof (map_range_perm _ validCombins) as Hperm.
  destruct (validCombins !! OS platform) as [archs|] eqn:Hl.
  - apply checkPlatform_range_found.
    + rewrite (fmap_Permutation fst _ _ Hperm). apply NoDup_fst_map_to_list.
    + rewrite Hperm. apply elem_of_map_to_list, Hl.
  - apply checkPlatform_range_missing.
    rewrite (fmap_Permutation fst _ _ Hperm).
    intros ([k v] & Hk & Hin)%list_elem_of_fmap. simpl in Hk. subst k.
    apply elem_of_map_to_list in Hin. congruence.
Qed.

Lemma alike_refl {A : Type} (m : M A) : alike m m.
Proof. left. reflexivity. Qed.

Lemma alike_bind_l {A B : Type} (m1 m2 : M A) (k : A -> M B) :
  alike m1 m2 -> alike (m1 ≫= k) (m2 ≫= k).
Proof.
  intros [->|(pre & e1 & e2 & -> & -> & H1 & H2)]; [apply alike_refl|].
  right. exists pre, e1, e2. auto.
Qed.

Lemma alike_bind_r {A B : Type} (m : M A) (k1 k2 : A -> M B) :
  (forall a, alike (k1 a) (k2 a)) -> alike (m ≫= k1) (m ≫= k2).
Proof.
  intros Hk. destruct m as [l [a| |]]; try apply alike_refl.
  destruct (Hk a) as [Heq|(pre & e1 & e2 & H1 & H2 & Hd1 & Hd2)].
  - left. unfold mbind, M_bind. rewrite Heq. reflexivity.
  - right. exists (l ++ pre), e1, e2.
    unfold mbind, M_bind. rewrite H1, H2, <- !app_assoc. auto.
Qed.

Lemma bind_nil_l {A B : Type} (a : A) (k : A -> M B) :
  ([], Returns a) ≫= k = k a.
Proof. unfold mbind, M_bind. destruct (k a). reflexivity. Qed.

Lemma checkSysctl_cases c k :
  checkSysctl c k = ([], Returns tt) \/
  exists e, checkSysctl c k = ([e], Exits) /\ sysctlDiagnostic e.
Proof.
  unfold checkSysctl.
  destruct (strings_HasPrefix k "net." && negb (netExists c)).
  - right. eexists. split; [reflexivity|].
    split; [reflexivity|]. exists k. split; [reflexivity|]. left. reflexivity.
  - destruct (strings_HasPrefix k "fs.mqueue.");
      [destruct (negb (mountExists c) || negb (ipcExists c))|];
      try (left; reflexivity).
    right. eexists. split; [reflexivity|].
    split; [reflexivity|]. exists k. split; [reflexivity|]. right. reflexivity.
Qed.

Lemma sysctl_range_cases c keys :
  forEach keys (checkSysctl c) = ([], Returns tt) \/
  exists e, forEach keys (checkSysctl c) = ([e], Exits) /\ sysctlDiagnostic e.
Proof.
  induction keys as [|k keys IH]; simpl; [left; reflexivity|].
  destruct (checkSysctl_cases c k) as [->|(e & -> & He)].
  - rewrite bind_nil_l. exact IH.
  - right. exists e. split; [reflexivity | exact He].
Qed.

Lemma sysctl_range_alike c keys keys' :
  keys ≡ₚ keys' ->
  alike (forEach keys (checkSysctl c)) (forEach keys' (checkSysctl c)).
Proof.
  intros Hperm.
  assert (Hpass : passes (forEach keys (checkSysctl c)) <->
                  passes (forEach keys' (checkSysctl c))).
  { rewrite !passes_forEach, Hperm. reflexivity. }
  destruct (sysctl_range_cases c keys) as [H1|(e1 & H1 & Hd1)],
           (sysctl_range_cases c keys') as [H2|(e2 & H2 & Hd2)].
  - left. congruence.
  - exfalso. rewrite H1, H2 in Hpass. unfold passes in Hpass. simpl in Hpass.
    destruct Hpass as [Hpass _]. discriminate (Hpass eq_refl).
  - exfalso. rewrite H1, H2 in Hpass. unfold passes in Hpass. simpl in Hpass.
    destruct Hpass as [_ Hpass]. discriminate (Hpass eq_refl).
  - right. exists [], e1, e2. auto.
Qed.

Section TwoRuns.
Context `{GoLib} `{SpecsGo} `{PackageMain}.
Variables G1 G2 : GoRuntime.

Lemma checkLinux_alike spec :
  alike (@checkLinux _ G1 spec) (@checkLinux _ G2 spec).
Proof.
  unfold checkLinux.
  apply alike_bind_r; intros _. apply alike_bind_r; intros _.
  apply alike_bind_r; intros c. apply alike_bind_l.
  apply sysctl_range_alike.
  apply fmap_Permutation.
  rewrite (@map_range_perm G1), (@map_range_perm G2). reflexivity.
Qed.

Lemma bundleValidate_alike host spec rootfs hostCheck :
  alike (@bundleValidate _ _ _ G1 host spec rootfs hostCheck)
        (@bundleValidate _ _ _ G2 host spec rootfs hostCheck).
Proof.
  unfold bundleValidate.
  rewrite (@checkPlatform_lookup G1), (@checkPlatform_lookup G2).
  do 5 (apply alike_bind_r; intros _).
  apply alike_bind_l, checkLinux_alike.
Qed.

End TwoRuns.

(** C8, counterexample: on the same configuration and the same host, a run
    that visits the sysctl map in one order and a run that visits it in the
    opposite order stop on different messages: one names ["net.a"], the
    other ["net.b"]. *)
Lemma two_runs_two_messages :
  let warning :=
    {| level := WarnLevel;
       format := "Checking linux mount types without --host-specific is not supported yet";
       args := [] |} in
  let stop (k : string) :=
    {| level := FatalLevel;
       format := "Sysctl %v requires a new Network namespace to be specified as well";
       args := [AString k] |} in
  @bundleValidate latin1 specs_go someCaps forwards emptyHost twoSysctl "/rootfs" false
    = ([warning; stop "net.a"], Exits) /\
  @bundleValidate latin1 specs_go someCaps backwards emptyHost twoSysctl "/rootfs" false
    = ([warning; stop "net.b"], Exits) /\
  output (@bundleValidate latin1 specs_go someCaps forwards emptyHost twoSysctl "/rootfs" false)
  <> output (@bundleValidate latin1 specs_go someCaps backwards emptyHost twoSysctl "/rootfs" false).
Proof.
  split; [vm_compute; reflexivity|]. split; [vm_compute; reflexivity|].
  vm_compute. discriminate.
Qed.

(** C8, amended: for every configuration and fixed filesystem state, two
    runs of the validation reach the same verdict; their outputs are
    identical too, except that when both stop in the loop over the sysctl
    keys the last message, which names the offending key the runtime
    happened to visit first, can differ while everything before it is the
    same. *)
Theorem bundleValidate_verdict_deterministic
    `{GoLib} `{SpecsGo} `{PackageMain} (G1 G2 : GoRuntime)
    (host : Host) (spec : Spec) (rootfs : string) (hostCheck : bool) :
  let run1 := @bundleValidate _ _ _ G1 host spec rootfs hostCheck in
  let run2 := @bundleValidate _ _ _ G2 host spec rootfs hostCheck in
  result run1 = result run2 /\
  (output run1 = output run2 \/
   exists pre e1 e2,
     output run1 = pre ++ [e1] /\ output run2 = pre ++ [e2] /\
     sysctlDiagnostic e1 /\ sysctlDiagnostic e2 /\ result run1 = Exits).
Proof.
  intros run1 run2. subst run1 run2.
  destruct (bundleValidate_alike G1 G2 host spec rootfs hostCheck)
    as [Heq|(pre & e1 & e2 & Hrun1 & Hrun2 & Hd1 & Hd2)].
  - rewrite Heq. auto.
  - rewrite Hrun1, Hrun2. split; [reflexivity|].
    right. exists pre, e1, e2. auto.
Qed.

(** ** Further properties of [validate.go] *)

(** *** Guards and loops *)

Lemma output_bind {A B : Type} (m : M A) (k : A -> M B) :
  output (m ≫= k) =
  match result m with
  | Returns a => output m ++ output (k a)
  | _ => output m
  end.
Proof.
  destruct m as [l [a| |]]; unfold mbind, M_bind, output, result; simpl; trivial.
  destruct (k a); reflexivity.
Qed.

(** A guard [if ok then skip else Fatalf ..], and one on [negb]. *)
Lemma passes_unless (ok : bool) fmt a :
  passes (if ok then skip else Fatalf fmt a) <-> ok = true.
Proof. destruct ok; split; try discriminate; reflexivity. Qed.

Lemma passes_guard_negb (ok : bool) fmt a :
  passes (if negb ok then Fatalf fmt a else skip) <-> ok = true.
Proof. destruct ok; split; try discriminate; reflexivity. Qed.

Lemma passes_seq_iff (m k : M unit) :
  passes (m ;; k) <-> passes m /\ passes k.
Proof. apply passes_seq. Qed.

Lemma Forall_equiv {A : Type} (P Q : A -> Prop) (l : list A) :
  (forall x, P x <-> Q x) -> Forall P l <-> Forall Q l.
Proof.
  intros HPQ. split; intros Hall; (eapply Forall_impl; [exact Hall|]);
    intros x; apply HPQ.
Qed.

Lemma and_iff_both (A A' B B' : Prop) :
  (A <-> A') -> (B <-> B') -> (A /\ B <-> A' /\ B').
Proof. tauto. Qed.

Lemma existsb_eqb_elem (x : string) (l : list string) :
  existsb (fun y => String.eqb y x) l = true <-> x ∈ l.
Proof.
  rewrite existsb_exists. split.
  - intros (y & Hin & Heq). apply String.eqb_eq in Heq. subst y.
    apply list_elem_of_In, Hin.
  - intros Hin. exists x. split; [apply list_elem_of_In, Hin|].
    apply String.eqb_refl.
Qed.

(** *** The platform check *)

Lemma checkPlatform_examples :
  passes (@checkPlatform forwards {| OS := "linux"; Arch := "amd64" |}) /\
  result (@checkPlatform forwards {| OS := "linux"; Arch := "sparc" |}) = Exits /\
  result (@checkPlatform backwards {| OS := "plan9"; Arch := "arm" |}) = Exits /\
  result (@checkPlatform backwards {| OS := "haiku"; Arch := "amd64" |}) = Exits.
Proof. repeat split; vm_compute; reflexivity. Qed.

(** X1: the platform check passes exactly when the OS is a key of the table
    and the architecture is listed under it, whatever the order in which the
    runtime visits the table; an OS that is no key stops the run with the
    message about the operating system, an unlisted architecture of a known
    OS with the message about the combination. *)
Theorem checkPlatform_table `{GoRuntime} (platform : Platform) :
  (passes (checkPlatform platform) <->
   exists archs, validCombins !! OS platform = Some archs /\
                 Arch platform ∈ archs) /\
  (validCombins !! OS platform = None ->
   checkPlatform platform =
   Fatalf "Operation system %q of the bundle is not supported yet."
     [AString (OS platform)]) /\
  (forall archs,
     validCombins !! OS platform = Some archs -> Arch platform ∉ archs ->
     checkPlatform platform =
     Fatalf "Combination of %q and %q is invalid."
       [AString (OS platform); AString (Arch platform)]).
Proof.
  rewrite checkPlatform_lookup. split; [|split].
  - destruct (validCombins !! OS platform) as [archs|]; simpl.
    + destruct (existsb _ archs) eqn:He.
      * apply existsb_eqb_elem in He. split; [eauto | reflexivity].
      * split; [discriminate|]. intros (archs' & [= <-] & Hin).
        apply existsb_eqb_elem in Hin. congruence.
    + split; [discriminate|]. intros (? & ? & _); discriminate.
  - intros ->. reflexivity.
  - intros archs -> Hout. simpl.
    destruct (existsb _ archs) eqn:He; [|reflexivity].
    apply existsb_eqb_elem in He. contradiction.
Qed.

(** *** The process check *)

(** The last statement of [checkProcess]. *)
Lemma passes_profile (host : Host) (profile profilePath : string) :
  passes (if 0 <? len profile
          then match os_Stat host profilePath with
               | inr err => Fatal [AError err]
               | inl _ => skip
               end
          else skip) <->
  profile = "" \/ exists fi, os_Stat host profilePath = inl fi.
Proof.
  destruct profile as [|a profile].
  - simpl. split; [auto | reflexivity].
  - assert (Hlen : (0 <? len (String a profile)) = true).
    { unfold len. simpl. apply Z.ltb_lt. lia. }
    rewrite Hlen. destruct (os_Stat host profilePath) as [fi|err].
    + split; [eauto | reflexivity].
    + split; [discriminate|]. intros [Hp|[fi Hfi]]; discriminate.
Qed.

(** X2: the process check passes exactly when the working directory is
    absolute, every environment entry is of the form [keyValue], every
    capability is in [defaultCaps], every rlimit type is in
    [defaultRlimits], and the profile, if one is named, exists under the
    root filesystem in [/etc/apparmor.d]: the profile is looked up on the
    host whether or not host inspection was asked for. *)
Theorem checkProcess_accepts `{GoLib} `{PackageMain}
    (host : Host) (process : Process) (rootfs : string) :
  passes (checkProcess host process rootfs) <->
  path_IsAbs (Cwd process) = true /\
  Forall keyValue (Env process) /\
  Forall (fun capability => capability ∈ defaultCaps) (Capabilities process) /\
  Forall (fun rl => Rlimit_Type rl ∈ defaultRlimits) (Rlimits process) /\
  (ApparmorProfile process = "" \/
   exists fi,
     os_Stat host (path_Join [rootfs; "/etc/apparmor.d"; ApparmorProfile process])
     = inl fi).
Proof.
  unfold checkProcess. rewrite !passes_seq_iff, !passes_forEach.
  rewrite passes_guard_negb, passes_profile.
  rewrite (Forall_equiv _ keyValue (Env process)).
  2:{ intros env. rewrite passes_envValid_guard. apply envValid_keyValue. }
  rewrite (Forall_equiv _ (fun capability => capability ∈ defaultCaps)
             (Capabilities process)).
  2:{ intros c. rewrite passes_guard_negb. apply existsb_eqb_elem. }
  rewrite (Forall_equiv _ (fun rl => Rlimit_Type rl ∈ defaultRlimits)
             (Rlimits process)).
  2:{ intros rl. rewrite passes_guard_negb. apply existsb_eqb_elem. }
  reflexivity.
Qed.

(** *** The hooks check *)

(** The host-inspection statement of [checkEventHooks]. *)
Lemma passes_executable (host : Host) (hostCheck : bool) (p : string) f1 a1 f2 a2 :
  passes (if hostCheck
          then match os_Stat host p with
               | inr _ => Fatalf f1 a1
               | inl fi => if Z.land (Mode fi) 73 =? 0 then Fatalf f2 a2 else skip
               end
          else skip) <->
  (hostCheck = true ->
   exists fi, os_Stat host p = inl fi /\ Z.land (Mode fi) 73 <> 0).
Proof.
  destruct hostCheck; [|split; [discriminate | reflexivity]].
  destruct (os_Stat host p) as [fi|err].
  - destruct (Z.eqb_spec (Z.land (Mode fi) 73) 0) as [Hz|Hz].
    + split; [discriminate|]. intros Hx.
      destruct (Hx eq_refl) as (fi' & [= <-] & Hnz). contradiction.
    + split; [eauto | reflexivity].
  - split; [discriminate|]. intros Hx.
    destruct (Hx eq_refl) as (fi & Hfi & _). discriminate.
Qed.

Lemma checkEventHooks_accepts `{GoLib} host hookType hooks hostCheck :
  passes (checkEventHooks host hookType hooks hostCheck) <->
  Forall (hookAccepted host hostCheck) hooks.
Proof.
  unfold checkEventHooks. rewrite passes_forEach.
  apply Forall_equiv. intros hook. unfold hookAccepted.
  rewrite !passes_seq_iff, passes_guard_negb, passes_executable, passes_forEach.
  rewrite (Forall_equiv _ keyValue (Hook_Env hook)); [reflexivity|].
  intros env. rewrite passes_envValid_guard. apply envValid_keyValue.
Qed.

(** X3: the hooks check passes exactly when every hook of the three phases
    has an absolute path and an environment of entries of the form
    [keyValue], and, under host inspection only, its path exists on the host
    with at least one execute bit set. *)
Theorem checkHooks_accepts `{GoLib} (host : Host) (hooks : Hooks)
    (hostCheck : bool) :
  passes (checkHooks host hooks hostCheck) <->
  Forall (hookAccepted host hostCheck)
         (Prestart hooks ++ Poststart hooks ++ Poststop hooks).
Proof.
  unfold checkHooks.
  rewrite !passes_seq_iff, !checkEventHooks_accepts, !Forall_app. reflexivity.
Qed.

(** *** The seccomp check *)

(** X4: the seccomp check passes exactly when the default action is empty
    or one of the five actions, every syscall has such an action and only
    operators among the seven of [specs-go], and every architecture is one
    of the sixteen enumerated. *)
Theorem checkSeccomp_accepts `{SpecsGo} (s : Seccomp) :
  passes (checkSeccomp s) <->
  DefaultAction s ∈ [""; ActKill; ActTrap; ActErrno; ActTrace; ActAllow] /\
  Forall (fun sc =>
            Syscall_Action sc ∈ [""; ActKill; ActTrap; ActErrno; ActTrace; ActAllow] /\
            Forall (fun a => Op a ∈ [OpNotEqual; OpLessThan; OpLessEqual; OpEqualTo;
                                      OpGreaterEqual; OpGreaterThan; OpMaskedEqual])
                   (Syscall_Args sc))
         (Syscalls s) /\
  Forall (fun a => a ∈ [ArchX86; ArchX86_64; ArchX32; ArchARM; ArchAARCH64;
                        ArchMIPS; ArchMIPS64; ArchMIPS64N32; ArchMIPSEL;
                        ArchMIPSEL64; ArchMIPSEL64N32; ArchPPC; ArchPPC64;
                        ArchPPC64LE; ArchS390; ArchS390X])
         (Architectures s).
Proof.
  assert (Haction : forall secc,
    seccompActionValid secc = true <->
    secc ∈ [""; ActKill; ActTrap; ActErrno; ActTrace; ActAllow]).
  { intros secc. unfold seccompActionValid.
    rewrite !orb_true_iff, !String.eqb_eq, !elem_of_cons, elem_of_nil.
    intuition congruence. }
  assert (Hop : forall op,
    opValid op = true <->
    op ∈ [OpNotEqual; OpLessThan; OpLessEqual; OpEqualTo;
          OpGreaterEqual; OpGreaterThan; OpMaskedEqual]).
  { intros op. unfold opValid.
    rewrite !orb_true_iff, !String.eqb_eq, !elem_of_cons, elem_of_nil.
    intuition congruence. }
  unfold checkSeccomp.
  rewrite !passes_seq_iff, !passes_forEach, passes_guard_negb, Haction.
  apply and_iff_compat_l. apply and_iff_both.
  - apply Forall_equiv. intros sc. rewrite passes_guard_negb.
    unfold syscallValid.
    destruct (seccompActionValid (Syscall_Action sc)) eqn:Ha; simpl.
    + apply Haction in Ha. rewrite forallb_forall.
      rewrite list.Forall_forall. split.
      * intros Hall. split; [exact Ha|]. intros a Hin.
        apply Hop, Hall, list_elem_of_In, Hin.
      * intros [_ Hall] a Hin. apply Hop, Hall, list_elem_of_In, Hin.
    + split; [discriminate|]. intros [Ha' _]. apply Haction in Ha'. congruence.
  - apply Forall_equiv. intros a. rewrite passes_unless. unfold archValid.
    rewrite existsb_exists. split.
    + intros (y & Hin & Heq). apply String.eqb_eq in Heq. subst y.
      apply list_elem_of_In, Hin.
    + intros Hin. exists a. split; [apply list_elem_of_In, Hin|].
      apply String.eqb_refl.
Qed.

(** *** The Linux check *)

Section LinuxAccepts.
Context `{SpecsGo} `{GoRuntime}.

Lemma passes_after_namespaces nss (k : created -> M unit) :
  passes (c ← checkNamespaces nss noneCreated; k c) <->
  forallb namespaceValid nss = true /\ passes (k (track noneCreated nss)).
Proof.
  unfold passes. rewrite bind_returns. setoid_rewrite checkNamespaces_result.
  destruct (forallb namespaceValid nss).
  - split.
    + intros (c & [= <-] & Hk). auto.
    + intros [_ Hk]. eauto.
  - split; [intros (c & Hc & _); discriminate | intros [Hc _]; discriminate].
Qed.

Lemma namespaceValid_kinds ns :
  namespaceValid ns = true <->
  Namespace_Type ns ∈ [PIDNamespace; NetworkNamespace; MountNamespace;
                       IPCNamespace; UTSNamespace; UserNamespace;
                       CgroupNamespace].
Proof.
  unfold namespaceValid.
  rewrite !orb_true_iff, !String.eqb_eq, !elem_of_cons, elem_of_nil.
  intuition congruence.
Qed.

Lemma sysctl_hostname_iff spec :
  let linux := Spec_Linux spec in
  let c := track noneCreated (Namespaces linux) in
  Forall (fun k => passes (checkSysctl c k)) (map_range (Sysctl linux)).*1 /\
  (String.eqb (OS (Spec_Platform spec)) "linux" && negb (utsExists c)
   && negb (String.eqb (Hostname spec) "") = false) <->
  dependenciesMet spec.
Proof.
  intros linux c. unfold dependenciesMet. fold linux.
  assert (Hnet : netExists c = true <->
                 declaredNew (Namespaces linux) NetworkNamespace)
    by (simpl; apply existsb_newly).
  assert (Hmount : mountExists c = true <->
                   declaredNew (Namespaces linux) MountNamespace)
    by (simpl; apply existsb_newly).
  assert (Hipc : ipcExists c = true <->
                 declaredNew (Namespaces linux) IPCNamespace)
    by (simpl; apply existsb_newly).
  assert (Huts : utsExists c = true <->
                 declaredNew (Namespaces linux) UTSNamespace)
    by (simpl; apply existsb_newly).
  split.
  - intros [Hall Hh]. split; [|split].
    + intros k Hin Hpre. apply Hnet. apply range_keys in Hin.
      pose proof (proj1 (list.Forall_forall _ _) Hall k Hin) as Hk.
      apply passes_checkSysctl in Hk as [Hk _]. exact (Hk Hpre).
    + intros k Hin Hpre. apply range_keys in Hin.
      pose proof (proj1 (list.Forall_forall _ _) Hall k Hin) as Hk.
      apply passes_checkSysctl in Hk as [_ Hk]. destruct (Hk Hpre).
      split; [apply Hmount | apply Hipc]; assumption.
    + intros Hhost Hos. apply Huts. rewrite Hos in Hh. simpl in Hh.
      destruct (String.eqb_spec (Hostname spec) ""); [contradiction|].
      simpl in Hh. rewrite andb_true_r in Hh.
      apply negb_false_iff in Hh. exact Hh.
  - intros (Hn & Hm & Hu). split.
    + apply list.Forall_forall. intros k Hin. apply range_keys in Hin.
      apply passes_checkSysctl. split; intros Hpre.
      * apply Hnet, (Hn k Hin Hpre).
      * destruct (Hm k Hin Hpre).
        split; [apply Hmount | apply Hipc]; assumption.
    + destruct (String.eqb_spec (OS (Spec_Platform spec)) "linux") as [Hos|Hos];
        [|reflexivity].
      destruct (String.eqb_spec (Hostname spec) "") as [Hh|Hh];
        [apply andb_false_r|].
      simpl. rewrite andb_true_r. apply negb_false_iff, Huts, Hu; assumption.
Qed.

(** X5: the Linux check passes exactly when there are at most five UID and
    at most five GID mappings, every namespace is of one of the seven kinds,
    the three dependencies on newly created namespaces are met, every device
    is valid, the seccomp policy, if there is one, passes its check, and the
    rootfs propagation is empty or one of the six modes; this does not
    depend on the order in which the runtime visits the sysctl map. *)
Theorem checkLinux_accepts spec :
  let linux := Spec_Linux spec in
  passes (checkLinux spec) <->
  (length (UIDMappings linux) <= 5)%nat /\
  (length (GIDMappings linux) <= 5)%nat /\
  Forall (fun ns => Namespace_Type ns ∈
                      [PIDNamespace; NetworkNamespace; MountNamespace;
                       IPCNamespace; UTSNamespace; UserNamespace;
                       CgroupNamespace]) (Namespaces linux) /\
  dependenciesMet spec /\
  Forall (fun d => deviceValid d = true) (Devices linux) /\
  (forall s, Linux_Seccomp linux = Some s -> passes (checkSeccomp s)) /\
  RootfsPropagation linux ∈
    [""; "private"; "rprivate"; "slave"; "rslave"; "shared"; "rshared"].
Proof.
  intros linux. unfold checkLinux. fold linux.
  rewrite !passes_seq_iff, !passes_guard, !Nat.ltb_ge.
  change {| utsExists := false; ipcExists := false;
            mountExists := false; netExists := false |} with noneCreated.
  rewrite passes_after_namespaces.
  rewrite !passes_seq_iff, passes_forEach, passes_forEach, passes_guard,
    passes_unless.
  rewrite <- (sysctl_hostname_iff spec). fold linux.
  assert (Hns : forallb namespaceValid (Namespaces linux) = true <->
                Forall (fun ns => Namespace_Type ns ∈
                      [PIDNamespace; NetworkNamespace; MountNamespace;
                       IPCNamespace; UTSNamespace; UserNamespace;
                       CgroupNamespace]) (Namespaces linux)).
  { rewrite forallb_forall, list.Forall_forall.
    setoid_rewrite <- namespaceValid_kinds.
    setoid_rewrite list_elem_of_In. reflexivity. }
  assert (Hdev : Forall (fun d => passes (if negb (deviceValid d)
                                          then Fatalf "device %v is invalid." [ADevice d]
                                          else skip)) (Devices linux) <->
                 Forall (fun d => deviceValid d = true) (Devices linux)).
  { apply Forall_equiv. intros d. apply passes_guard_negb. }
  assert (Hsec : passes (match Linux_Seccomp linux with
                         | Some s => checkSeccomp s
                         | None => skip
                         end) <->
                 (forall s, Linux_Seccomp linux = Some s -> passes (checkSeccomp s))).
  { destruct (Linux_Seccomp linux) as [s|].
    - split; [intros Hs s' [= <-]; exact Hs | auto].
    - split; [discriminate | reflexivity]. }
  assert (Hprop : rootfsPropagationValid (RootfsPropagation linux) = true <->
                  RootfsPropagation linux ∈
                    [""; "private"; "rprivate"; "slave"; "rslave"; "shared"; "rshared"]).
  { unfold rootfsPropagationValid. rewrite existsb_exists. split.
    - intros (y & Hin & Heq). apply String.eqb_eq in Heq. subst y.
      apply list_elem_of_In, Hin.
    - intros Hin. exists (RootfsPropagation linux).
      split; [apply list_elem_of_In, Hin | apply String.eqb_refl]. }
  rewrite Hns, Hdev, Hsec, Hprop. tauto.
Qed.

End LinuxAccepts.

(** Five UID mappings pass, six do not. *)
Lemma checkLinux_mappings_example :
  passes (@checkLinux specs_go forwards (withMappings 5)) /\
  ~ passes (@checkLinux specs_go forwards (withMappings 6)).
Proof.
  split; [vm_compute; reflexivity|].
  intros Hp. apply (@checkLinux_accepts specs_go forwards) in Hp as [Hlen _].
  simpl in Hlen. lia.
Defined.

(** *** The advisory of [envValid] *)

Section Advisory.
Context `{GoLib}.

Lemma envValid_range_cons env i ch rs :
  envValid_range env i (ch :: rs) =
  if negb (unicode_IsDigit ch) && negb (unicode_IsLetter ch) && negb (ch =? 95)
  then mret false
  else (if Nat.eqb i 0 && unicode_IsDigit ch
        then Warnf "Env %v: variable name beginning with digit is not recommended."
               [AString env]
        else skip) ;;
       envValid_range env (S i) rs.
Proof. reflexivity. Qed.

Lemma envValid_range_later env i rs :
  output (envValid_range env (S i) rs) = [].
Proof.
  revert i. induction rs as [|ch rs IH]; intros i; [reflexivity|].
  rewrite envValid_range_cons.
  destruct (negb (unicode_IsDigit ch) && negb (unicode_IsLetter ch)
            && negb (ch =? 95)); [reflexivity|].
  rewrite output_bind. change (Nat.eqb (S i) 0) with false.
  cbn [andb]. change (result skip) with (Returns tt).
  change (output skip) with (@nil Entry). apply IH.
Qed.

Lemma envValid_range_first env rs :
  output (envValid_range env 0 rs) =
  match rs with
  | ch :: _ => if unicode_IsDigit ch then [digitAdvisory env] else []
  | [] => []
  end.
Proof.
  destruct rs as [|ch rs]; [reflexivity|].
  rewrite envValid_range_cons.
  destruct (unicode_IsDigit ch); cbn [negb andb Nat.eqb].
  - rewrite output_bind.
    change (result (Warnf _ _)) with (Returns tt).
    rewrite envValid_range_later. reflexivity.
  - destruct (negb (unicode_IsLetter ch) && negb (ch =? 95)); [reflexivity|].
    rewrite output_bind. change (result skip) with (Returns tt).
    change (output skip) with (@nil Entry). apply envValid_range_later.
Qed.

Lemma envValid_at_sep key value :
  "="%char ∉ bytes key ->
  envValid (key +:+ String "=" value) =
  envValid_range (key +:+ String "=" value) 0 (TrimSpace_runes key).
Proof.
  intros Hc. unfold envValid. rewrite (strings_Split_app _ _ _ Hc).
  destruct (strings_Split value "=") as [|p ps] eqn:E.
  - destruct (strings_Split_nonempty _ _ E).
  - reflexivity.
Qed.

End Advisory.

(** X6: [envValid] never stops the run.  An entry without [=] is rejected
    in silence; an entry [key=value] is judged on its trimmed key, and the
    one thing [envValid] ever prints is the advisory, printed exactly when
    the first rune of the trimmed key is a digit (an advisory does not
    reject: the verdict stays that of the grammar). *)
Theorem envValid_advisory `{GoLib} :
  (forall env, "="%char ∉ bytes env -> envValid env = ([], Returns false)) /\
  (forall key value,
     "="%char ∉ bytes key ->
     let env := key +:+ String "=" value in
     envValid env =
     (match TrimSpace_runes key with
      | ch :: _ => if unicode_IsDigit ch then [digitAdvisory env] else []
      | [] => []
      end,
      Returns (forallb keyRune (TrimSpace_runes key)))).
Proof.
  split.
  - intros env Hc. unfold envValid. rewrite (strings_Split_none _ _ Hc).
    reflexivity.
  - intros key value Hc env. subst env.
    rewrite (envValid_at_sep _ _ Hc).
    rewrite (surjective_pairing (envValid_range _ 0 _)).
    f_equal.
    + apply envValid_range_first.
    + apply envValid_range_result.
Qed.

(** The entry [1A=x] is accepted with the advisory, [A1=x] without. *)
Lemma envValid_advisory_example :
  ("="%char ∉ bytes "1A") /\
  @envValid latin1 "1A=x" = ([digitAdvisory "1A=x"], Returns true) /\
  @envValid latin1 "A1=x" = ([], Returns true).
Proof.
  assert (Hc : "="%char ∉ bytes "1A").
  { intros Hin. apply list_elem_of_In in Hin. simpl in Hin.
    destruct Hin as [Hin|[Hin|[]]]; discriminate Hin. }
  split; [exact Hc|]. split; [|vm_compute; reflexivity].
  exact (proj2 (@envValid_advisory latin1) "1A" "x" Hc).
Defined.

(** *** The mounts check when the host cannot be read *)

Lemma scanFilesystems_error pre text err rest (m : gmap string bool) :
  Forall (fun line => line.2 = None) pre ->
  exists m', scanFilesystems (pre ++ (text, Some err) :: rest) m = (m', Some err).
Proof.
  intros Hclean. revert m.
  induction Hclean as [|[t e] pre He _ IH]; intros m; simpl.
  - eauto.
  - simpl in He. subst e. apply IH.
Qed.

(** X7: on the OS ["linux"] under host inspection, when
    [/proc/filesystems] cannot be opened, or the scanner reports an error
    with one of its lines, the mounts check stops the run with that error as
    its message, whatever the mounts of the configuration are, even none. *)
Theorem checkMounts_host_errors (host : Host) (spec : Spec) :
  OS (Spec_Platform spec) = "linux" ->
  (forall err,
     proc_filesystems host = inr err ->
     checkMounts host spec true = Fatal [AError err]) /\
  (forall pre text err rest,
     proc_filesystems host = inl (pre ++ (text, Some err) :: rest) ->
     Forall (fun line => line.2 = None) pre ->
     checkMounts host spec true = Fatal [AError err]).
Proof.
  intros Hos. split.
  - intros err Hopen. unfold checkMounts, supportedMountTypes.
    rewrite Hos, Hopen. reflexivity.
  - intros pre text err rest Hopen Hclean.
    unfold checkMounts, supportedMountTypes. rewrite Hos, Hopen. simpl.
    destruct (scanFilesystems_error pre text err rest ∅ Hclean) as [m' ->].
    reflexivity.
Qed.

(** With no [/proc/filesystems], three mounts or none make no difference. *)
Lemma checkMounts_emptyHost :
  OS (Spec_Platform threeMounts) = "linux" /\
  checkMounts emptyHost threeMounts true =
    Fatal [AError "open /proc/filesystems: no such file or directory"].
Proof.
  split; [reflexivity|].
  exact (proj1 (checkMounts_host_errors emptyHost threeMounts eq_refl) _ eq_refl).
Defined.

(** *** The driver *)

Lemma checkMandatoryField_passes (obj : value) :
  passes (checkMandatoryField obj) <->
  exists msgs, checkMandatory obj = Some (msgs, true).
Proof.
  unfold checkMandatoryField.
  destruct (checkMandatory obj) as [[msgs [|]]|]; simpl.
  - split; [eauto | reflexivity].
  - split; [discriminate | intros [? [=]]].
  - split; [discriminate | intros [? [=]]].
Qed.

(** X8: the validation succeeds exactly when the presence check finds every
    required field and each of the six semantic checks passes.  When the
    presence check finds a violation, the run ends there: its whole output
    is the one fatal entry that carries all the messages, and no semantic
    check has run; when [reflect] panics, nothing is printed. *)
Theorem bundleValidate_accepts `{GoLib} `{SpecsGo} `{PackageMain} `{GoRuntime}
    (host : Host) (spec : Spec) (rootfs : string) (hostCheck : bool) :
  (passes (bundleValidate host spec rootfs hostCheck) <->
   (exists msgs, checkMandatory (reflect_Spec spec) = Some (msgs, true)) /\
   passes (checkSemVer (Version spec)) /\
   passes (checkPlatform (Spec_Platform spec)) /\
   passes (checkProcess host (Spec_Process spec) rootfs) /\
   passes (checkMounts host spec hostCheck) /\
   passes (checkLinux spec) /\
   passes (checkHooks host (Spec_Hooks spec) hostCheck)) /\
  (forall msgs,
     checkMandatory (reflect_Spec spec) = Some (msgs, false) ->
     bundleValidate host spec rootfs hostCheck =
     Fatalf "Mandatory information missing: %s." [AStrings msgs]) /\
  (checkMandatory (reflect_Spec spec) = None ->
   bundleValidate host spec rootfs hostCheck = panic).
Proof.
  unfold bundleValidate. split; [|split].
  - rewrite !passes_seq_iff, checkMandatoryField_passes. reflexivity.
  - intros msgs Hm. unfold checkMandatoryField. rewrite Hm. reflexivity.
  - intros Hm. unfold checkMandatoryField. rewrite Hm. reflexivity.
Qed.

(** *** One fatal entry, and the last *)

Lemma disciplined_ret {A : Type} (a : A) : disciplined (mret a : M A).
Proof. constructor. Qed.

Lemma disciplined_skip : disciplined skip.
Proof. constructor. Qed.

Lemma disciplined_panic {A : Type} : disciplined (@panic A).
Proof. constructor. Qed.

Lemma disciplined_Warnf fmt a : disciplined (Warnf fmt a).
Proof. repeat constructor. Qed.

Lemma disciplined_Fatalf fmt a : disciplined (Fatalf fmt a).
Proof.
  exists [], {| level := FatalLevel; format := fmt; args := a |}.
  split; [reflexivity|]. split; [constructor | reflexivity].
Qed.

Lemma disciplined_bind {A B : Type} (m : M A) (k : A -> M B) :
  disciplined m -> (forall a, disciplined (k a)) -> disciplined (m ≫= k).
Proof.
  intros Hm Hk. destruct m as [l [a| |]]; try exact Hm.
  specialize (Hk a). unfold disciplined in *.
  unfold mbind, M_bind. destruct (k a) as [l' o']. simpl in *.
  destruct o' as [b| |].
  - apply Forall_app. auto.
  - destruct Hk as (pre & e & -> & Hpre & He).
    exists (l ++ pre), e. rewrite app_assoc.
    split; [reflexivity|]. split; [apply Forall_app; auto | exact He].
  - apply Forall_app. auto.
Qed.

Lemma disciplined_forEach {A : Type} (l : list A) (body : A -> M unit) :
  (forall x, disciplined (body x)) -> disciplined (forEach l body).
Proof.
  intros Hb. induction l as [|x l IH]; simpl; [apply disciplined_skip|].
  apply disciplined_bind; auto.
Qed.

(** The discipline of a computation built from the primitives. *)
Ltac discipline :=
  repeat first
    [ apply disciplined_skip
    | apply disciplined_ret
    | apply disciplined_Warnf
    | apply disciplined_Fatalf
    | apply disciplined_panic
    | solve [auto]
    | apply disciplined_forEach; intros ?
    | apply disciplined_bind; [|intros ?]
    | match goal with
      | |- disciplined (if ?b then _ else _) => destruct b
      | |- disciplined (match ?x with _ => _ end) => destruct x
      end ].

Section Discipline.
Context `{GoLib} `{SpecsGo} `{PackageMain} `{GoRuntime}.

Lemma disciplined_checkSemVer version : disciplined (checkSemVer version).
Proof. unfold checkSemVer. discipline. Qed.

Lemma disciplined_checkPlatform platform : disciplined (checkPlatform platform).
Proof.
  unfold checkPlatform.
  induction (map_range validCombins) as [|[os archs] entries IH]; simpl;
    discipline.
Qed.

Lemma disciplined_envValid_range env i rs :
  disciplined (envValid_range env i rs).
Proof.
  revert i. induction rs as [|ch rs IH]; intros i; [apply disciplined_ret|].
  rewrite envValid_range_cons. discipline.
Qed.

Lemma disciplined_envValid env : disciplined (envValid env).
Proof.
  unfold envValid.
  destruct (length (strings_Split env "=") <? 2)%nat; [apply disciplined_ret|].
  apply disciplined_envValid_range.
Qed.

Lemma disciplined_checkProcess host process rootfs :
  disciplined (checkProcess host process rootfs).
Proof.
  unfold checkProcess, Fatal.
  pose proof disciplined_envValid. discipline.
Qed.

Lemma disciplined_checkMounts host spec hostCheck :
  disciplined (checkMounts host spec hostCheck).
Proof.
  unfold checkMounts, supportedMountTypes, Fatal. discipline.
Qed.

Lemma disciplined_checkNamespaces nss c : disciplined (checkNamespaces nss c).
Proof.
  revert c. induction nss as [|ns nss IH]; intros c; simpl;
    [apply disciplined_ret|].
  apply disciplined_bind; [|intros c'; apply IH].
  unfold checkNamespace. discipline.
Qed.

Lemma disciplined_checkSeccomp s : disciplined (checkSeccomp s).
Proof. unfold checkSeccomp. discipline. Qed.

Lemma disciplined_checkLinux spec : disciplined (checkLinux spec).
Proof.
  unfold checkLinux, checkSysctl.
  pose proof disciplined_checkNamespaces. pose proof disciplined_checkSeccomp.
  discipline.
Qed.

Lemma disciplined_checkHooks host hooks hostCheck :
  disciplined (checkHooks host hooks hostCheck).
Proof.
  unfold checkHooks, checkEventHooks.
  pose proof disciplined_envValid. discipline.
Qed.

Lemma disciplined_bundleValidate host spec rootfs hostCheck :
  disciplined (bundleValidate host spec rootfs hostCheck).
Proof.
  unfold bundleValidate, checkMandatoryField.
  pose proof disciplined_checkSemVer. pose proof disciplined_checkPlatform.
  pose proof disciplined_checkProcess. pose proof disciplined_checkMounts.
  pose proof disciplined_checkLinux. pose proof disciplined_checkHooks.
  discipline.
Qed.

End Discipline.

(** X9: whatever the configuration and the host, a validation that exits
    has printed exactly one fatal entry, and it is the last entry of the
    output; every entry before it, and every entry of a validation that does
    not exit, is a warning.  Several violated semantic rules never yield
    several fatal messages. *)
Theorem bundleValidate_one_fatal `{GoLib} `{SpecsGo} `{PackageMain} `{GoRuntime}
    (host : Host) (spec : Spec) (rootfs : string) (hostCheck : bool) :
  let run := bundleValidate host spec rootfs hostCheck in
  (result run = Exits <->
   exists pre e,
     output run = pre ++ [e] /\ Forall isWarning pre /\ level e = FatalLevel) /\
  (result run <> Exits -> Forall isWarning (output run)).
Proof.
  intros run.
  pose proof (disciplined_bundleValidate host spec rootfs hostCheck) as Hd.
  fold run in Hd. unfold disciplined in Hd.
  destruct (result run) as [[]| |] eqn:Hr.
  - split; [|auto]. split; [discriminate|].
    intros (pre & e & Hout & _ & He). rewrite Hout in Hd.
    apply Forall_app in Hd as [_ Hd]. apply Forall_cons in Hd as [Hw _].
    unfold isWarning in Hw. congruence.
  - split; [tauto | congruence].
  - split; [|auto]. split; [discriminate|].
    intros (pre & e & Hout & _ & He). rewrite Hout in Hd.
    apply Forall_app in Hd as [_ Hd]. apply Forall_cons in Hd as [Hw _].
    unfold isWarning in Hw. congruence.
Qed.

(** *** What is read from the host *)

Section WithoutHost.
Context `{GoLib} `{SpecsGo} `{PackageMain} `{GoRuntime}.
Variables host host' : Host.

Lemma checkProcess_no_profile process rootfs :
  ApparmorProfile process = "" ->
  checkProcess host process rootfs = checkProcess host' process rootfs.
Proof. intros Hp. unfold checkProcess. rewrite Hp. reflexivity. Qed.

Lemma supportedMountTypes_uninspected os :
  supportedMountTypes host os false = supportedMountTypes host' os false.
Proof. reflexivity. Qed.

Lemma checkMounts_uninspected spec :
  checkMounts host spec false = checkMounts host' spec false.
Proof. reflexivity. Qed.

Lemma checkHooks_uninspected hooks :
  checkHooks host hooks false = checkHooks host' hooks false.
Proof. reflexivity. Qed.

End WithoutHost.

(** X10: without host inspection, and with no profile named, the validation
    reads nothing from the host: on two different hosts it prints the same
    and ends the same.  (A named profile is looked up on the host even
    without host inspection.) *)
Theorem bundleValidate_without_host
    `{GoLib} `{SpecsGo} `{PackageMain} `{GoRuntime}
    (host host' : Host) (spec : Spec) (rootfs : string) :
  ApparmorProfile (Spec_Process spec) = "" ->
  bundleValidate host spec rootfs false = bundleValidate host' spec rootfs false.
Proof.
  intros Hp. unfold bundleValidate.
  rewrite (checkProcess_no_profile host host' _ _ Hp),
    (checkMounts_uninspected host host'),
    (checkHooks_uninspected host host').
  reflexivity.
Qed.

Lemma bundleValidate_hosts_example :
  ApparmorProfile (Spec_Process twoSysctl) = "" /\
  @bundleValidate latin1 specs_go someCaps forwards emptyHost twoSysctl "/rootfs" false
  = @bundleValidate latin1 specs_go someCaps forwards someHost twoSysctl "/rootfs" false /\
  result (@bundleValidate latin1 specs_go someCaps forwards emptyHost withProfile "/rootfs" false)
  = Exits /\
  passes (@bundleValidate latin1 specs_go someCaps forwards someHost withProfile "/rootfs" false).
Proof.
  split; [reflexivity|].
  split; [exact (@bundleValidate_without_host latin1 specs_go someCaps forwards
                   emptyHost someHost twoSysctl "/rootfs" eq_refl)|].
  split; vm_compute; reflexivity.
Defined.

(** *** A nil pointer among the elements of a sequence *)

Lemma collect_panic_l rest : collect None rest = None.
Proof. reflexivity. Qed.

Lemma collect_panic_r step : collect step None = None.
Proof. destruct step as [[ms ok]|]; reflexivity. Qed.

Lemma checkElems_panic rec es1 e es2 :
  rec e = None -> checkElems rec true (es1 ++ e :: es2) = None.
Proof.
  intros He. induction es1 as [|x es1 IH]; simpl.
  - rewrite He. reflexivity.
  - rewrite IH. apply collect_panic_r.
Qed.

Lemma checkFields_panic rec tname pre tagField field post :
  checkField rec tname tagField field = None ->
  checkFields rec tname (pre ++ (tagField, field) :: post) = None.
Proof.
  intros Hf. induction pre as [|[f x] pre IH]; simpl.
  - rewrite Hf. reflexivity.
  - rewrite IH. apply collect_panic_r.
Qed.

(** X11: a nil pointer to a struct that has fields, met as an element of a
    sequence in an exported field, makes the presence checker panic: the
    validation then ends with neither a verdict nor a message, whatever else
    the configuration holds. *)
Theorem checkMandatory_panics_on_nil_element
    (tname : string) (pre post : list (StructField * value))
    (tagField : StructField) (es1 es2 : list value) (n : nat) :
  exported tagField = true ->
  let obj :=
    VStruct tname
      (pre ++ (tagField, VSlice (es1 ++ VNilStructPtr (S n) :: es2)) :: post) in
  checkMandatory obj = None /\ checkMandatoryField obj = panic.
Proof.
  intros Hexp obj.
  assert (Hobj : checkMandatory obj = None).
  { subst obj. simpl. apply checkFields_panic.
    unfold checkField. simpl. rewrite Hexp.
    assert (Hlen : Nat.eqb (length (es1 ++ VNilStructPtr (S n) :: es2)) 0 = false).
    { rewrite length_app. simpl. apply Nat.eqb_neq. lia. }
    rewrite Hlen, andb_false_r.
    apply checkElems_panic. reflexivity. }
  split; [exact Hobj|]. unfold checkMandatoryField. rewrite Hobj. reflexivity.
Qed.

Lemma checkMandatory_hooksByPointer :
  exported (optional "Prestart" "prestart") = true /\
  checkMandatory hooksByPointer = None /\
  checkMandatoryField hooksByPointer = panic.
Proof.
  split; [reflexivity|].
  exact (checkMandatory_panics_on_nil_element "Hooks" [] []
           (optional "Prestart" "prestart")
           [VStructPtr "Hook" [(required "Path" "path", VString "/bin/a")]]
           [] 0 eq_refl).
Defined.

(** *** Mounts on Windows *)

(** X12: on the OS ["windows"] the mounts check passes exactly when every
    mount is of type ["ntfs"], with or without host inspection and whatever
    the host. *)
Theorem checkMounts_windows (host : Host) (spec : Spec) (hostCheck : bool) :
  OS (Spec_Platform spec) = "windows" ->
  (passes (checkMounts host spec hostCheck) <->
   Forall (fun mount => Mount_Type mount = "ntfs") (Mounts spec)).
Proof.
  intros Hos.
  assert (Hd : result (supportedMountTypes host (OS (Spec_Platform spec)) hostCheck)
               = Returns (Some (<["ntfs" := true]> ∅), None)).
  { unfold supportedMountTypes. rewrite Hos. reflexivity. }
  unfold passes. rewrite (checkMounts_derived host spec hostCheck _ Hd).
  assert (Hntfs : forall t, index (<["ntfs" := true]> ∅) t = true <-> t = "ntfs").
  { intros t. rewrite index_insert, index_empty. intuition discriminate. }
  destruct (existsb _ (Mounts spec)) eqn:He.
  - apply existsb_exists in He as (mount & Hin & Hbad).
    apply negb_true_iff in Hbad. split; [discriminate|]. intros Hall.
    pose proof (proj1 (list.Forall_forall _ _) Hall mount
                  (proj2 (list_elem_of_In _ _) Hin)) as Ht.
    apply Hntfs in Ht. congruence.
  - split; [intros _ | reflexivity].
    apply list.Forall_forall. intros mount Hin. apply Hntfs.
    destruct (index (<["ntfs" := true]> ∅) (Mount_Type mount)) eqn:Hi;
      [reflexivity|].
    assert (Ht : existsb (fun mount => negb (index (<["ntfs" := true]> ∅)
                                               (Mount_Type mount)))
                   (Mounts spec) = true).
    { apply existsb_exists. exists mount. rewrite Hi.
      split; [apply list_elem_of_In, Hin | reflexivity]. }
    congruence.
Qed.

(** On Windows a mount of type [ntfs] passes on a host with no file. *)
Lemma checkMounts_windows_example :
  OS (Spec_Platform windowsSpec) = "windows" /\
  passes (checkMounts emptyHost windowsSpec true).
Proof.
  split; [reflexivity|].
  apply (proj2 (checkMounts_windows emptyHost windowsSpec true eq_refl)).
  repeat constructor.
Defined.

(** *** The order of the checks *)

Lemma bind_skip_r (m : M unit) : (m ;; skip) = m.
Proof.
  destruct m as [l [[]| |]]; unfold mbind, M_bind; simpl; trivial.
  rewrite app_nil_r. reflexivity.
Qed.

Lemma runAll_passes (stages : list (M unit)) :
  Forall passes stages ->
  runAll stages = (concat (map output stages), Returns tt).
Proof.
  induction 1 as [|stage stages Hs _ IH]; simpl; [reflexivity|].
  destruct stage as [l o]. unfold passes, result in Hs. simpl in Hs. subst o.
  rewrite IH. reflexivity.
Qed.

Lemma runAll_stops (pre : list (M unit)) (stage : M unit) (post : list (M unit)) :
  Forall passes pre -> result stage <> Returns tt ->
  runAll (pre ++ stage :: post) =
  (concat (map output pre) ++ output stage, result stage).
Proof.
  intros Hpre Hstage. induction Hpre as [|s pre Hs _ IH]; simpl.
  - destruct stage as [l [[]| |]]; simpl in *; try reflexivity.
    contradiction.
  - destruct s as [l o]. unfold passes, result in Hs. simpl in Hs. subst o.
    rewrite IH. unfold mbind, M_bind. simpl. rewrite app_assoc. reflexivity.
Qed.

(** X13: the validation is its seven checks run in the order presence,
    version, platform, process, mounts, Linux, hooks.  When all pass, the
    output is their outputs one after the other; when one does not, the
    output is the output of the checks before it followed by its own, the
    run ends as that check ends, and the checks after it contribute
    nothing. *)
Theorem bundleValidate_in_order `{GoLib} `{SpecsGo} `{PackageMain} `{GoRuntime}
    (host : Host) (spec : Spec) (rootfs : string) (hostCheck : bool) :
  let stages := checks host spec rootfs hostCheck in
  let run := bundleValidate host spec rootfs hostCheck in
  (Forall passes stages -> run = (concat (map output stages), Returns tt)) /\
  (forall pre stage post,
     stages = pre ++ stage :: post ->
     Forall passes pre -> result stage <> Returns tt ->
     run = (concat (map output pre) ++ output stage, result stage)).
Proof.
  intros stages run.
  assert (Hrun : run = runAll stages).
  { subst run stages. unfold bundleValidate, checks, runAll.
    rewrite bind_skip_r. reflexivity. }
  rewrite Hrun. split.
  - apply runAll_passes.
  - intros pre stage post -> Hpre Hstage. apply runAll_stops; assumption.
Qed.

(** A configuration whose version and platform are both wrong: only the
    version is reported. *)
Lemma bundleValidate_in_order_example :
  @bundleValidate latin1 specs_go someCaps forwards emptyHost wrongTwice "/rootfs" false
  = (@checkSemVer latin1 specs_go "2.0.0").
Proof.
  pose proof (proj2 (@bundleValidate_in_order latin1 specs_go someCaps forwards
                       emptyHost wrongTwice "/rootfs" false)
                [@checkMandatoryField (@reflect_Spec specs_go wrongTwice)]
                (@checkSemVer latin1 specs_go "2.0.0")
                _ eq_refl) as Hrun.
  rewrite Hrun.
  - vm_compute. reflexivity.
  - repeat constructor.
  - vm_compute. discriminate.
Defined.

(** *** Host inspection only adds requirements *)

Lemma checkMounts_uninspected_passes host spec :
  passes (checkMounts host spec true) -> passes (checkMounts host spec false).
Proof.
  unfold checkMounts, supportedMountTypes.
  destruct (String.eqb (OS (Spec_Platform spec)) "linux");
    destruct (String.eqb (OS (Spec_Platform spec)) "windows"); simpl;
    auto; intros _; reflexivity.
Qed.

Lemma hookAccepted_uninspected `{GoLib} host hook :
  hookAccepted host true hook -> hookAccepted host false hook.
Proof.
  intros (Habs & _ & Henv). split; [exact Habs|].
  split; [discriminate | exact Henv].
Qed.

(** X14: a configuration that passes the validation under host inspection
    passes it without: host inspection only adds requirements (the mount
    types of the host, the hooks present and executable), it waives none. *)
Theorem bundleValidate_inspection_stricter
    `{GoLib} `{SpecsGo} `{PackageMain} `{GoRuntime}
    (host : Host) (spec : Spec) (rootfs : string) :
  passes (bundleValidate host spec rootfs true) ->
  passes (bundleValidate host spec rootfs false).
Proof.
  unfold bundleValidate. rewrite !passes_seq_iff, !checkHooks_accepts.
  intros (Hm & Hv & Hpl & Hpr & Hmo & Hl & Hh).
  repeat split; try assumption.
  - apply checkMounts_uninspected_passes, Hmo.
  - eapply Forall_impl; [exact Hh|]. intros hook.
    apply hookAccepted_uninspected.
Qed.

(** [withProfile] passes on [someHost] under host inspection, hence
    without. *)
Lemma bundleValidate_inspection_example :
  passes (@bundleValidate latin1 specs_go someCaps forwards someHost withProfile "/rootfs" true) /\
  passes (@bundleValidate latin1 specs_go someCaps forwards someHost withProfile "/rootfs" false).
Proof.
  assert (Hp : passes (@bundleValidate latin1 specs_go someCaps forwards someHost
                         withProfile "/rootfs" true))
    by (vm_compute; reflexivity).
  split; [exact Hp|].
  exact (@bundleValidate_inspection_stricter latin1 specs_go someCaps forwards
           someHost withProfile "/rootfs" Hp).
Defined.
